(** * Screen recorder: capture, audio mixing, session and export

    A shallow embedding of the capture-record-export pipeline of
    [src/main.py]: [AudioRecordThread.save_to_file], [RecordThread.run],
    [ExportThread.run] with its two raster-video helpers, and the frame
    bookkeeping of [ScreenRecorder].

    Python statements that touch the outside world (the file system, Qt
    signals, [print]) are functions on an explicit [world]; a raised
    exception is the [Raise] outcome of a small state-and-error monad.
    What the environment decides (which ticks of the capture loop fail,
    what the audio callbacks delivered, how the multiplexer process ends,
    the names of the temporary files) is an argument of the model.
    Audio samples are binary32 numbers of the library's [SpecFloat]; the
    doubles of the image scaling are the rationals they denote, every
    operation rounded to binary64 by [f64_round]. *)

From Stdlib Require Import ZArith QArith List Lia Lqa Bool.
From Stdlib Require Import SpecFloat DecimalString Ascii.
From stdpp Require Import gmap strings list fin_maps.

Open Scope Z_scope.

(** ** Python values shared by all components *)

(** The exceptions the modelled code can meet. *)
Inductive exn :=
| FileNotFoundError (p : string)
| SameFileError (p : string)
| ZeroDivisionError
| IndexError
| ValueError (msg : string)
| OSError (msg : string)
| CvError (msg : string).

(** Pixel layouts that occur: the grabber's BGRA, the stored BGR and the
    RGB handed to the animated-image writer. *)
Inductive layout := BGRA | BGR | RGB.

(** A frame is a numpy image.  Its [shape[:2]] is [(rows, cols)]; the pixel
    payload is identified by [pix], the index of the screen grab it was
    decoded from. *)
Record frame := Frame {
  rows : Z;
  cols : Z;
  chan : layout;
  pix : nat
}.

(** float32 samples, as [np.float32]: IEEE binary32 through [SpecFloat]. *)
Abbreviation f32 := spec_float.
Definition f32_prec : Z := 24.
Definition f32_emax : Z := 128.
Definition f32_add : f32 -> f32 -> f32 := SFadd f32_prec f32_emax.
Definition f32_div : f32 -> f32 -> f32 := SFdiv f32_prec f32_emax.
Definition f32_of_Z (n : Z) : f32 := binary_normalize f32_prec f32_emax n 0 false.

(** A numpy array of samples: one-dimensional, or two-dimensional with
    shape [(length rws, ncols)]. *)
Inductive ndarray :=
| arr1 (xs : list f32)
| arr2 (ncols : nat) (rws : list (list f32)).

(** Every row of a two-dimensional array has [ncols] entries. *)
Definition wf_ndarray (a : ndarray) : bool :=
  match a with
  | arr1 _ => true
  | arr2 c rws => forallb (fun r => Nat.eqb (length r) c) rws
  end.

(** What a path of the file system holds. *)
Inductive file :=
| VideoFile (fourcc : string) (fps : Z) (size : Z * Z) (written : list frame)
| GifFile (fps : Z) (images : list frame)
| WavFile (rate : Z) (data : ndarray)
| MuxedFile (video audio : file)
| OtherFile (tag : nat).

(** Qt signals and console output, in emission order.  A computed progress
    value is kept as the operands of [int(num / den * scale)]; the literal
    one as itself. *)
Inductive event :=
| frame_captured (count : Z)
| recording_stopped
| progress_updated (num den scale : Z)
| progress_literal (value : Z)
| export_finished (ok : bool) (msg : string)
| printed (what : string)
| printed_exn (what : string) (e : exn).

Record world := World {
  fs : gmap string file;
  out : list event
}.

(** ** The state-and-error monad of the embedding *)

Inductive result (A : Type) :=
| Ok (a : A)
| Raise (e : exn).
Arguments Ok {A} a.
Arguments Raise {A} e.

Definition M (A : Type) : Type := world -> result A * world.

Definition ret {A} (a : A) : M A := fun w => (Ok a, w).

Definition bind {A B} (m : M A) (k : A -> M B) : M B :=
  fun w => match m w with
           | (Ok a, w') => k a w'
           | (Raise e, w') => (Raise e, w')
           end.

Definition raise {A} (e : exn) : M A := fun w => (Raise e, w).

(** [try: m  except Exception as e: h e] *)
Definition try_except {A} (m : M A) (h : exn -> M A) : M A :=
  fun w => match m w with
           | (Ok a, w') => (Ok a, w')
           | (Raise e, w') => h e w'
           end.

Declare Scope py_scope.
Delimit Scope py_scope with py.
Notation "x <- c1 ;; c2" := (bind c1 (fun x => c2))
  (at level 100, c1 at next level, right associativity) : py_scope.
Notation "c1 ;; c2" := (bind c1 (fun _ => c2))
  (at level 100, right associativity) : py_scope.

Definition emit (e : event) : M unit :=
  fun w => (Ok tt, World (fs w) (out w ++ [e])).

(** [os.path.exists] *)
Definition path_exists (p : string) : M bool :=
  fun w => (Ok (bool_decide (is_Some (fs w !! p))), w).

(** [os.remove]: a missing path raises. *)
Definition os_remove (p : string) : M unit :=
  fun w => match fs w !! p with
           | Some _ => (Ok tt, World (delete p (fs w)) (out w))
           | None => (Raise (FileNotFoundError p), w)
           end.

(** [shutil.copy src dst]: a missing source raises; the source stays. *)
Definition shutil_copy (src dst : string) : M unit :=
  fun w => match fs w !! src with
           | Some f =>
               if decide (src = dst) then (Raise (SameFileError src), w)
               else (Ok tt, World (<[dst := f]> (fs w)) (out w))
           | None => (Raise (FileNotFoundError src), w)
           end.

(** Writing (or overwriting) a whole file. *)
Definition write_file (p : string) (f : file) : M unit :=
  fun w => (Ok tt, World (<[p := f]> (fs w)) (out w)).

(** A Python string or [None] used as a condition. *)
Definition truthy (o : option string) : bool :=
  match o with
  | Some s => negb (String.eqb s "")
  | None => false
  end.

(** A pure computation that may raise, run inside [M]. *)
Definition lift {A} (r : result A) : M A := fun w => (r, w).

(** ** numpy operations used by the mixer *)

(** [len(a)]: the size of axis 0. *)
Definition np_len (a : ndarray) : nat :=
  match a with
  | arr1 xs => length xs
  | arr2 _ rws => length rws
  end.

(** [a.shape[1]] of a two-dimensional array; a one-dimensional one has none. *)
Definition np_channels (a : ndarray) : option nat :=
  match a with
  | arr1 _ => None
  | arr2 c _ => Some c
  end.

(** [a[:n]] *)
Definition np_take (n : nat) (a : ndarray) : ndarray :=
  match a with
  | arr1 xs => arr1 (take n xs)
  | arr2 c rws => arr2 c (take n rws)
  end.

(** Joining two arrays along axis 0; dimensions other than the first must
    agree. *)
Definition np_concat2 (a b : ndarray) : result ndarray :=
  match a, b with
  | arr1 xs, arr1 ys => Ok (arr1 (xs ++ ys))
  | arr2 c xs, arr2 c' ys =>
      if Nat.eqb c c' then Ok (arr2 c (xs ++ ys))
      else Raise (ValueError "all the input array dimensions except for the concatenation axis must match exactly")
  | _, _ => Raise (ValueError "all the input arrays must have same number of dimensions")
  end.

(** [np.concatenate(chunks, axis=0)] *)
Fixpoint np_concatenate_from (acc : ndarray) (chunks : list ndarray) : result ndarray :=
  match chunks with
  | [] => Ok acc
  | c :: rest =>
      match np_concat2 acc c with
      | Ok acc' => np_concatenate_from acc' rest
      | Raise e => Raise e
      end
  end.

Definition np_concatenate (chunks : list ndarray) : result ndarray :=
  match chunks with
  | [] => Raise (ValueError "need at least one array to concatenate")
  | c :: rest => np_concatenate_from c rest
  end.

Definition same_shape (a b : ndarray) : bool :=
  match a, b with
  | arr1 xs, arr1 ys => Nat.eqb (length xs) (length ys)
  | arr2 c xs, arr2 c' ys => Nat.eqb c c' && Nat.eqb (length xs) (length ys)
  | _, _ => false
  end.

(** Element-wise float32 addition of two arrays of one shape. *)
Definition np_add (a b : ndarray) : ndarray :=
  match a, b with
  | arr1 xs, arr1 ys => arr1 (zip_with f32_add xs ys)
  | arr2 c xs, arr2 _ ys => arr2 c (zip_with (zip_with f32_add) xs ys)
  | _, _ => a
  end.

Definition np_map (f : f32 -> f32) (a : ndarray) : ndarray :=
  match a with
  | arr1 xs => arr1 (map f xs)
  | arr2 c rws => arr2 c (map (map f) rws)
  end.

(** [np.mean([p] + ps, axis=0).astype(np.float32)]: the arrays are stacked,
    which needs one common shape, summed along the new axis in float32 and
    divided by their number. *)
Definition np_mean_axis0 (p : ndarray) (ps : list ndarray) : result ndarray :=
  if forallb (same_shape p) ps then
    Ok (np_map (fun s => f32_div s (f32_of_Z (Z.of_nat (S (length ps)))))
               (fold_left np_add ps p))
  else
    Raise (ValueError "setting an array element with a sequence. The requested array has an inhomogeneous shape").

(** [min(len(p) for p in [p] + ps)] *)
Definition min_len (p : ndarray) (ps : list ndarray) : nat :=
  fold_left (fun m q => Nat.min m (np_len q)) ps (np_len p).

(** ** AudioRecordThread *)

Module AudioRecordThread.

Record t := Build {
  sample_rate : Z;
  system_audio_data : list ndarray;
  mic_audio_data : list ndarray
}.

(** The nested helper of [save_to_file]. *)
Definition ensure_stereo (audio : ndarray) : ndarray :=
  match audio with
  | arr1 xs => arr2 2 (map (fun x => [x; x]) xs)
  | arr2 c rws =>
      if Nat.eqb c 1
      then arr2 2 (map (fun r => let x := nth 0 r (S754_zero false) in [x; x]) rws)
      else audio
  end.

(** [sf.write(filepath, mixed, rate)]; [failure] is the error the sound
    file library meets, if any. *)
Definition sf_write (failure : option exn) (filepath : string)
    (mixed : ndarray) (rate : Z) : M unit :=
  match failure with
  | Some e => raise e
  | None => write_file filepath (WavFile rate mixed)
  end.

(** One [if data: ... audio_parts.append(...)] block. *)
Definition add_source (what : string) (data : list ndarray)
    (audio_parts : list ndarray) : M (list ndarray) :=
  match data with
  | [] => ret audio_parts
  | _ :: _ =>
      (audio <- lift (np_concatenate data) ;;
       let audio := ensure_stereo audio in
       emit (printed what) ;;
       ret (audio_parts ++ [audio]))%py
  end.

Definition save_to_file (self : t) (failure : option exn)
    (filepath : string) : M (option string) :=
  try_except
    (audio_parts <- add_source "System audio" (system_audio_data self) [] ;;
     audio_parts <- add_source "Mic audio" (mic_audio_data self) audio_parts ;;
     match audio_parts with
     | [] => ret None
     | p :: ps =>
         mixed <- (match ps with
                   | [] => ret p
                   | _ :: _ =>
                       let n := min_len p ps in
                       lift (np_mean_axis0 (np_take n p) (map (np_take n) ps))
                   end) ;;
         sf_write failure filepath mixed (sample_rate self) ;;
         ret (Some filepath)
     end)%py
    (fun e => (emit (printed_exn "Save audio error" e) ;; ret None)%py).

End AudioRecordThread.

(** ** RecordThread *)

(** [cv2.cvtColor]: only the channel order changes. *)
Definition cv2_cvtColor (img : frame) (to : layout) : frame :=
  Frame (rows img) (cols img) to (pix img).

(** What one iteration of the capture loop meets: the grab raises, the
    conversion raises, or a BGRA image is obtained. *)
Inductive tick :=
| grab_raises (e : exn)
| convert_raises (e : exn)
| grabbed (img : frame).

(** What the environment supplies to one capture sub-run: the iterations
    executed before the stop flag is seen, the chunks the two audio callbacks
    appended, the fate of the sound-file write, and the temporary name
    [tempfile.gettempdir()/screen_rec_audio_<time>.wav]. *)
Record subrun := Subrun {
  ticks : list tick;
  system_chunks : list ndarray;
  mic_chunks : list ndarray;
  sf_failure : option exn;
  audio_tmp : string
}.

Module RecordThread.

Record t := Build {
  fps : Z;
  record_audio : bool;
  is_recording : bool;
  frames : list frame;
  audio_thread : option AudioRecordThread.t;
  audio_file : option string
}.

(** [__init__]; the region only selects what the grabber sees. *)
Definition init (AUDIO_AVAILABLE : bool) (fps : Z) (record_audio : bool) : t :=
  Build fps (record_audio && AUDIO_AVAILABLE) false [] None None.

(** [start()]: the thread enters [run], whose first statement raises the
    flag; the iterations it performs are supplied when it is joined. *)
Definition start (self : t) : t :=
  Build (fps self) (record_audio self) true [] (audio_thread self) (audio_file self).

(** The body of [while self.is_recording:] for one iteration: the loop
    state is [(self.frames, count)]. *)
Definition loop_body (tk : tick) (st : list frame * Z) : M (list frame * Z) :=
  let '(frames, count) := st in
  try_except
    (match tk with
     | grab_raises e => raise e
     | convert_raises e => raise e
     | grabbed img =>
         let frame := cv2_cvtColor img BGR in
         let frames := frames ++ [frame] in
         let count := count + 1 in
         (emit (frame_captured count) ;; ret (frames, count))%py
     end)
    (fun e => (emit (printed_exn "Record error" e) ;; ret (frames, count))%py).

Fixpoint loop (tks : list tick) (st : list frame * Z) : M (list frame * Z) :=
  match tks with
  | [] => ret st
  | tk :: rest => (st' <- loop_body tk st ;; loop rest st')%py
  end.

Definition run (self : t) (env : subrun) : M t :=
  (let audio_thread :=
     if record_audio self
     then Some (AudioRecordThread.Build 44100 (system_chunks env) (mic_chunks env))
     else audio_thread self in
   (if fps self =? 0 then raise ZeroDivisionError else ret tt) ;;
   st <- loop (ticks env) ([], 0) ;;
   audio_file <- (match audio_thread with
                  | Some a =>
                      let audio_file := audio_tmp env in
                      AudioRecordThread.save_to_file a (sf_failure env) audio_file ;;
                      ret (Some audio_file)
                  | None => ret (audio_file self)
                  end) ;;
   emit recording_stopped ;;
   ret (Build (fps self) (record_audio self) false (fst st) audio_thread audio_file))%py.

Definition get_audio_file (self : t) : option string := audio_file self.

End RecordThread.

(** ** ExportThread *)

(** [lst[::step]] for a step of at least one: the elements at positions
    [0, step, 2*step, ...].  [skip] counts the elements still to pass over. *)
Fixpoint slice_from {A} (step skip : nat) (lst : list A) : list A :=
  match lst with
  | [] => []
  | x :: rest =>
      match skip with
      | O => x :: slice_from step (Nat.pred step) rest
      | S skip' => slice_from step skip' rest
      end
  end.

Definition slice_step {A} (step : Z) (lst : list A) : list A :=
  slice_from (Z.to_nat step) 0 lst.

(** Python's [a // b] on integers. *)
Definition floordiv (a b : Z) : result Z :=
  if b =? 0 then Raise ZeroDivisionError else Ok (a / b).

(** [cvRound] of a rational: the nearest integer, ties to the even one. *)
Definition cvRound (q : Q) : Z :=
  let d := Zpos (Qden q) in
  let k := Qnum q / d in
  let r := Qnum q mod d in
  if 2 * r <? d then k
  else if d <? 2 * r then k + 1
  else if Z.even k then k else k + 1.

(** A Python float, a C double, is the rational number it denotes.
    [pow2_frac e] is [2^e] as a fraction of two positive integers, and
    [f64_round q] is the binary64 number nearest to [q], ties to the even
    significand: the result of a correctly rounded operation whose exact
    result is [q].  The significand has 53 bits; the exponent range is left
    out, the scale factors and pixel counts of the program being far from
    overflow and underflow. *)
Definition pow2_frac (e : Z) : Z * Z := (2 ^ Z.max 0 e, 2 ^ Z.max 0 (- e)).

Definition f64_round (q : Q) : Q :=
  let n := Qnum q in
  let d := Zpos (Qden q) in
  if n =? 0 then 0%Q
  else
    let a := Z.abs n in
    let e0 := Z.log2 a - Z.log2 d - 53 in
    let '(V0, U0) := pow2_frac e0 in
    let e := if 2 ^ 53 * (d * V0) <=? a * U0 then e0 + 1 else e0 in
    let '(V, U) := pow2_frac e in
    let m := cvRound (a * U # Z.to_pos (d * V)) in
    (Z.sgn n * m * V) # (Z.to_pos U).

(** [cv2.resize(img, (0, 0), fx=fx, fy=fy)].  The library refuses an empty
    source and a scale factor that is not positive, computes the size
    [cvRound(cols * fx)] by [cvRound(rows * fy)] from the double products,
    and refuses an empty result, each time by raising [cv2.error].  The
    message kept here is the assertion that failed; the library's prefix
    to it (version, file and line) is left out. *)
Definition cv2_resize (img : frame) (fx fy : Q) : result frame :=
  if (cols img <=? 0) || (rows img <=? 0) then Raise (CvError "!ssize.empty()")
  else if Qle_bool fx 0 then Raise (CvError "inv_scale_x > 0")
  else if Qle_bool fy 0 then Raise (CvError "inv_scale_y > 0")
  else
    let width := cvRound (f64_round (inject_Z (cols img) * fx)) in
    let height := cvRound (f64_round (inject_Z (rows img) * fy)) in
    if (width <=? 0) || (height <=? 0) then Raise (CvError "!dsize.empty()")
    else Ok (Frame height width (chan img) (pix img)).

(** [str(e)] *)
Definition exn_str (e : exn) : string :=
  match e with
  | FileNotFoundError p => "[Errno 2] No such file or directory: " +:+ p
  | SameFileError p => p +:+ " and itself are the same file"
  | ZeroDivisionError => "integer division or modulo by zero"
  | IndexError => "list index out of range"
  | ValueError msg => msg
  | OSError msg => msg
  | CvError msg => msg
  end.

(** How the multiplexer invocation ends: the process cannot be started, or
    it exits with a return code, having left [output] (if any) at the
    output path. *)
Inductive proc :=
| launch_raises (e : exn)
| exited (returncode : Z) (output : option file).

Module ExportThread.

Record t := Build {
  frames : list frame;
  path : string;
  fps : Z;
  fmt : string;
  gif_fps : Z;
  audio_file : option string
}.

(** What the environment supplies to one export job: the temporary name
    [tempfile.gettempdir()/temp_video_<time>.mp4] and the behaviour of
    the multiplexer. *)
Record env := Env {
  temp_video : string;
  ffmpeg : proc
}.

Definition no_frames_msg : string := "没有录制到任何帧".

(** [for i, frame in enumerate(...): ... emit(int((i+1)/total * scale))],
    the progress part. *)
Fixpoint emit_progress (i : Z) (n : nat) (total scale : Z) : M unit :=
  match n with
  | O => ret tt
  | S n' => (emit (progress_updated (i + 1) total scale) ;;
             emit_progress (i + 1) n' total scale)%py
  end.

(** The image the animated-image loop prepares from one selected frame.
    [scale = 1000 / w] is the float quotient of two integers, [w] being
    above 1000 there. *)
Definition gif_frame (fr : frame) : result frame :=
  let rgb := cv2_cvtColor fr RGB in
  let w := cols rgb in
  if 1000 <? w then
    let scale := f64_round (1000 # Z.to_pos w) in
    cv2_resize rgb scale scale
  else Ok rgb.

(** [for i, frame in enumerate(selected): ...]: each frame is prepared and
    appended to [frames_rgb], then its progress signal is emitted. *)
Fixpoint gif_loop (i : Z) (selected : list frame) (count : Z)
    (frames_rgb : list frame) : M (list frame) :=
  match selected with
  | [] => ret frames_rgb
  | fr :: rest =>
      (rgb <- lift (gif_frame fr) ;;
       emit (progress_updated (i + 1) count 100) ;;
       gif_loop (i + 1) rest count (frames_rgb ++ [rgb]))%py
  end.

(** [max(1, self.fps // self.gif_fps)] *)
Definition gif_step (fps gif_fps : Z) : result Z :=
  match floordiv fps gif_fps with
  | Ok q => Ok (Z.max 1 q)
  | Raise e => Raise e
  end.

Definition fourcc_map (fmt : string) : string :=
  if String.eqb fmt "mp4" then "mp4v"
  else if String.eqb fmt "avi" then "XVID"
  else if String.eqb fmt "webm" then "VP80"
  else "mp4v".

Definition _export_video_only (self : t) (w h total : Z) : M unit :=
  (let fourcc := fourcc_map (fmt self) in
   write_file (path self) (VideoFile fourcc (fps self) (w, h) (frames self)) ;;
   emit_progress 0 (length (frames self)) total 100)%py.

(** [subprocess.run(cmd, ...)] for the command line built from the
    temporary video, the audio file and the output path. *)
Definition subprocess_run (p : proc) (output_path : string) : M Z :=
  match p with
  | launch_raises e => raise e
  | exited returncode None => ret returncode
  | exited returncode (Some f) => (write_file output_path f ;; ret returncode)%py
  end.

Definition _export_with_audio (self : t) (e : env) (audio_file : string)
    (w h total : Z) : M unit :=
  (let temp_video := temp_video e in
   write_file temp_video (VideoFile "mp4v" (fps self) (w, h) (frames self)) ;;
   emit_progress 0 (length (frames self)) total 80 ;;
   try_except
     (returncode <- subprocess_run (ffmpeg e) (path self) ;;
      emit (progress_literal 100) ;;
      (b <- path_exists temp_video ;;
       if b then os_remove temp_video else ret tt) ;;
      (b <- path_exists audio_file ;;
       if b then os_remove audio_file else ret tt) ;;
      if negb (returncode =? 0)
      then shutil_copy temp_video (path self)
      else ret tt)
     (fun ex =>
        emit (printed_exn "FFmpeg merge error" ex) ;;
        b <- path_exists temp_video ;;
        if b then shutil_copy temp_video (path self) else ret tt))%py.

Definition run (self : t) (e : env) : M unit :=
  try_except
    (let total := Z.of_nat (length (frames self)) in
     if total =? 0 then emit (export_finished false no_frames_msg)
     else
       ((if String.eqb (fmt self) "gif" then
           step <- lift (gif_step (fps self) (gif_fps self)) ;;
           let selected := slice_step step (frames self) in
           let count := Z.of_nat (length selected) in
           frames_rgb <- gif_loop 0 selected count [] ;;
           write_file (path self) (GifFile (gif_fps self) frames_rgb)
         else
           match frames self with
           | [] => raise IndexError
           | f0 :: _ =>
               let h := rows f0 in
               let w := cols f0 in
               b <- (match audio_file self with
                     | Some a => if truthy (Some a) then path_exists a else ret false
                     | None => ret false
                     end) ;;
               match audio_file self, b with
               | Some a, true => _export_with_audio self e a w h total
               | _, _ => _export_video_only self w h total
               end
           end) ;;
        emit (export_finished true (path self))))%py
    (fun ex => emit (export_finished false (exn_str ex))).

End ExportThread.

(** ** ScreenRecorder: the session *)

(** The entries of the capture-rate combo box and of the format combo box. *)
Inductive capture_rate := FPS30 | FPS60 | FPS24 | FPS15.
Inductive export_format := MP4 | GIF | AVI | WebM.

(** [int(self.combo_fps.currentText().split()[0])] *)
Definition rate_value (r : capture_rate) : Z :=
  match r with
  | FPS30 => 30
  | FPS60 => 60
  | FPS24 => 24
  | FPS15 => 15
  end.

(** [self.combo_fmt.currentText().lower()] *)
Definition format_name (f : export_format) : string :=
  match f with
  | MP4 => "mp4"
  | GIF => "gif"
  | AVI => "avi"
  | WebM => "webm"
  end.

Module ScreenRecorder.

Record t := Build {
  frames : list frame;
  is_recording : bool;
  record_thread : option RecordThread.t;
  record_time : Z;
  audio_file : option string
}.

(** [__init__] *)
Definition init : t := Build [] false None 0 None.

Definition start_recording (AUDIO_AVAILABLE : bool) (self : t)
    (rate : capture_rate) (check_audio : bool) : t :=
  let self :=
    match frames self with
    | [] => Build [] (is_recording self) (record_thread self) 0 None
    | _ :: _ => self
    end in
  let th := RecordThread.init AUDIO_AVAILABLE (rate_value rate) check_audio in
  Build (frames self) true (Some (RecordThread.start th))
        (record_time self) (audio_file self).

(** [stop_recording(finish)]: [env] is what the sub-run being joined met.
    A thread that has already returned is joined at once. *)
Definition stop_recording (self : t) (finish : bool) (env : subrun) : M t :=
  match record_thread self with
  | Some th =>
      (th <- (if RecordThread.is_recording th
              then RecordThread.run th env
              else ret th) ;;
       ret (Build (frames self ++ RecordThread.frames th) false (Some th)
                  (record_time self) (RecordThread.get_audio_file th)))%py
  | None =>
      ret (Build (frames self) false None (record_time self) (audio_file self))
  end.

(** [reselect_region]: the stop that keeps the frames; the selector it
    opens leads to [start_recording] once a region is confirmed. *)
Definition reselect_region (self : t) (env : subrun) : M t :=
  stop_recording self false env.

Definition update_time (self : t) : t :=
  Build (frames self) (is_recording self) (record_thread self)
        (record_time self + 1) (audio_file self).

Definition start_export (self : t) (format : export_format) (gif_fps : Z)
    (path : string) (rate : capture_rate) (e : ExportThread.env) : M t :=
  match frames self with
  | [] => ret self
  | _ :: _ =>
      (let fmt := format_name format in
       let audio_file :=
         if String.eqb fmt "gif" then None else audio_file self in
       ExportThread.run
         (ExportThread.Build (frames self) path (rate_value rate) fmt gif_fps audio_file) e ;;
       ret self)%py
  end.

(** The operations the user interface can trigger on a session. *)
Inductive op :=
| Start (rate : capture_rate) (check_audio : bool)
| Stop (env : subrun)
| Reselect (env : subrun)
| Tick
| Export (format : export_format) (gif_fps : Z) (path : string)
         (rate : capture_rate) (e : ExportThread.env).

Definition step (AUDIO_AVAILABLE : bool) (self : t) (o : op) : M t :=
  match o with
  | Start rate check_audio => ret (start_recording AUDIO_AVAILABLE self rate check_audio)
  | Stop env => stop_recording self true env
  | Reselect env => reselect_region self env
  | Tick => ret (update_time self)
  | Export format gif_fps path rate e => start_export self format gif_fps path rate e
  end.

Fixpoint steps (AUDIO_AVAILABLE : bool) (self : t) (ops : list op) : M t :=
  match ops with
  | [] => ret self
  | o :: rest => (self <- step AUDIO_AVAILABLE self o ;; steps AUDIO_AVAILABLE self rest)%py
  end.

End ScreenRecorder.

(** The frames a list of loop iterations appends, in order. *)
Definition captured (tks : list tick) : list frame :=
  omap (fun tk => match tk with
                  | grabbed img => Some (cv2_cvtColor img BGR)
                  | _ => None
                  end) tks.

(** ** Qt geometry used by the region selector *)

Record QPoint := Point {
  px : Z;
  py : Z
}.

(** [QRect] as Qt 5 stores it: the coordinates of the top-left and of the
    bottom-right pixel, both inside the rectangle. *)
Module QRect.

Record t := Build {
  x1 : Z;
  y1 : Z;
  x2 : Z;
  y2 : Z
}.

(** [QRect()], [QRect(x, y, w, h)] and [QRect(topLeft, bottomRight)]. *)
Definition null : t := Build 0 0 (-1) (-1).
Definition xywh (x y w h : Z) : t := Build x y (x + w - 1) (y + h - 1).
Definition of_points (tl br : QPoint) : t := Build (px tl) (py tl) (px br) (py br).

Definition left (r : t) : Z := x1 r.
Definition top (r : t) : Z := y1 r.
Definition right (r : t) : Z := x2 r.
Definition bottom (r : t) : Z := y2 r.
Definition width (r : t) : Z := x2 r - x1 r + 1.
Definition height (r : t) : Z := y2 r - y1 r + 1.

(** [center()]: the sums are divided as C++ divides, towards zero. *)
Definition center (r : t) : QPoint :=
  Point ((x1 r + x2 r) ÷ 2) ((y1 r + y2 r) ÷ 2).

Definition isEmpty (r : t) : bool := (x2 r <? x1 r) || (y2 r <? y1 r).

(** [contains(p)], with the edges inside. *)
Definition contains (r : t) (p : QPoint) : bool :=
  let '(l, rr) := if x2 r <? x1 r - 1 then (x2 r, x1 r) else (x1 r, x2 r) in
  if (px p <? l) || (rr <? px p) then false
  else
    let '(tp, b) := if y2 r <? y1 r - 1 then (y2 r, y1 r) else (y1 r, y2 r) in
    if (py p <? tp) || (b <? py p) then false else true.

(** [normalized()]: coordinates that are more than one apart the wrong way
    round are swapped. *)
Definition normalized (r : t) : t :=
  let '(a1, a2) := if x2 r <? x1 r - 1 then (x2 r, x1 r) else (x1 r, x2 r) in
  let '(b1, b2) := if y2 r <? y1 r - 1 then (y2 r, y1 r) else (y1 r, y2 r) in
  Build a1 b1 a2 b2.

End QRect.

(** ** RegionSelector *)

(** The region handed to the recorder. *)
Record region := Region {
  r_left : Z;
  r_top : Z;
  r_width : Z;
  r_height : Z
}.

(** [min(...)] and [max(...)] over a generator that yields [x] first. *)
Definition py_min (x : Z) (xs : list Z) : Z := fold_left Z.min xs x.
Definition py_max (x : Z) (xs : list Z) : Z := fold_left Z.max xs x.

Module RegionSelector.

(** The adjustment modes. *)
Inductive mode :=
| Mode_None
| Mode_Move
| Mode_Resize_TL
| Mode_Resize_T
| Mode_Resize_TR
| Mode_Resize_R
| Mode_Resize_BR
| Mode_Resize_B
| Mode_Resize_BL
| Mode_Resize_L.

Definition handle_size : Z := 10.

(** [screens] are the geometries of [QApplication.screens()], [primary]
    that of the primary screen. *)
Definition _get_virtual_geometry (screens : list QRect.t) (primary : QRect.t) : QRect.t :=
  match screens with
  | [] => primary
  | s0 :: rest =>
      let min_x := py_min (QRect.x1 s0) (map QRect.x1 rest) in
      let min_y := py_min (QRect.y1 s0) (map QRect.y1 rest) in
      let max_x := py_max (QRect.x1 s0 + QRect.width s0)
                          (map (fun s => QRect.x1 s + QRect.width s) rest) in
      let max_y := py_max (QRect.y1 s0 + QRect.height s0)
                          (map (fun s => QRect.y1 s + QRect.height s) rest) in
      QRect.xywh min_x min_y (max_x - min_x) (max_y - min_y)
  end.

Definition near (a b s2 : Z) : bool := Z.abs (a - b) <? s2.

Definition hit_test (current_rect : QRect.t) (pos : QPoint) : mode :=
  if QRect.isEmpty current_rect then Mode_None
  else
    let r := current_rect in
    let s := handle_size in
    let s2 := s + 5 in
    let c := QRect.center r in
    if near (px pos) (QRect.left r) s2 && near (py pos) (QRect.top r) s2 then Mode_Resize_TL
    else if near (px pos) (QRect.right r) s2 && near (py pos) (QRect.top r) s2 then Mode_Resize_TR
    else if near (px pos) (QRect.right r) s2 && near (py pos) (QRect.bottom r) s2 then Mode_Resize_BR
    else if near (px pos) (QRect.left r) s2 && near (py pos) (QRect.bottom r) s2 then Mode_Resize_BL
    else if near (px pos) (px c) s2 && near (py pos) (QRect.top r) s2 then Mode_Resize_T
    else if near (px pos) (QRect.right r) s2 && near (py pos) (py c) s2 then Mode_Resize_R
    else if near (px pos) (px c) s2 && near (py pos) (QRect.bottom r) s2 then Mode_Resize_B
    else if near (px pos) (QRect.left r) s2 && near (py pos) (py c) s2 then Mode_Resize_L
    else if QRect.contains r pos then Mode_Move
    else Mode_None.

(** Membership of a mode in one of the groups tested by [handle_resize]. *)
Definition moves_left (m : mode) : bool :=
  match m with Mode_Resize_L | Mode_Resize_TL | Mode_Resize_BL => true | _ => false end.
Definition moves_right (m : mode) : bool :=
  match m with Mode_Resize_R | Mode_Resize_TR | Mode_Resize_BR => true | _ => false end.
Definition moves_top (m : mode) : bool :=
  match m with Mode_Resize_T | Mode_Resize_TL | Mode_Resize_TR => true | _ => false end.
Definition moves_bottom (m : mode) : bool :=
  match m with Mode_Resize_B | Mode_Resize_BL | Mode_Resize_BR => true | _ => false end.

(** [handle_resize(pos)]: the new [current_rect], from the rectangle and the
    position recorded when the handle was pressed. *)
Definition handle_resize (initial_rect : QRect.t) (edit_mode : mode)
    (start_pos pos : QPoint) : QRect.t :=
  let r := initial_rect in
  let dx := px pos - px start_pos in
  let dy := py pos - py start_pos in
  let left := if moves_left edit_mode then QRect.left r + dx else QRect.left r in
  let right := if moves_right edit_mode then QRect.right r + dx else QRect.right r in
  let top := if moves_top edit_mode then QRect.top r + dy else QRect.top r in
  let bottom := if moves_bottom edit_mode then QRect.bottom r + dy else QRect.bottom r in
  QRect.normalized (QRect.of_points (Point left top) (Point right bottom)).


Definition get_current_region (current_rect virtual_geometry : QRect.t) : region :=
  let global_left := QRect.left current_rect + QRect.left virtual_geometry in
  let global_top := QRect.top current_rect + QRect.top virtual_geometry in
  Region global_left global_top (QRect.width current_rect) (QRect.height current_rect).

End RegionSelector.

(** ** The elapsed-time display *)

(** [str(n)] for an integer, and the format [{n:02d}]. *)
Definition str_of_Z (n : Z) : string := NilZero.string_of_int (Z.to_int n).

Definition fmt_02d (n : Z) : string :=
  let s := str_of_Z n in
  if Nat.ltb (String.length s) 2 then "0" +:+ s else s.

(** [ScreenRecorder.format_time] *)
Definition format_time (seconds : Z) : string :=
  let h := seconds / 3600 in
  let m := (seconds mod 3600) / 60 in
  let s := seconds mod 60 in
  fmt_02d h +:+ ":" +:+ fmt_02d m +:+ ":" +:+ fmt_02d s.

(** The character of a decimal digit. *)
Definition digit (d : Z) : ascii := ascii_of_nat (48 + Z.to_nat d).

(** ** The search for the loopback device *)

(** ASCII lower-casing, [needle in hay] and [s.endswith(suffix)]. *)
Definition lower_ascii (c : ascii) : ascii :=
  let n := nat_of_ascii c in
  if Nat.leb 65 n && Nat.leb n 90 then ascii_of_nat (n + 32) else c.

Fixpoint lower (s : string) : string :=
  match s with
  | EmptyString => EmptyString
  | String c rest => String (lower_ascii c) (lower rest)
  end.

Fixpoint str_in (needle hay : string) : bool :=
  String.prefix needle hay ||
  match hay with
  | EmptyString => false
  | String _ rest => str_in needle rest
  end.

Definition endswith (s suffix : string) : bool :=
  let n := String.length s in
  let k := String.length suffix in
  Nat.leb k n && String.eqb (String.substring (n - k) k s) suffix.

(** The fields of a device description that the search and the stream use. *)
Record device := Device {
  dev_name : string;
  dev_index : Z;
  maxInputChannels : Z
}.

(** The two searches of [AudioRecordThread.run] over the devices in index
    order: first a loopback device whose name contains the name of the
    default speakers, then any device with "loopback" in its name. *)
Definition find_loopback (devices : list device) (default_speakers : device)
    : option device :=
  let first :=
    find (fun dev =>
            (endswith (dev_name dev) "[Loopback]"
             || str_in "loopback" (lower (dev_name dev)))
            && str_in (dev_name default_speakers) (dev_name dev)) devices in
  match first with
  | Some dev => Some dev
  | None => find (fun dev => str_in "loopback" (lower (dev_name dev))) devices
  end.

(** ** Notions used to state the properties *)

(** The float32 constant 2 and the mean of two samples as
    [np.mean(..., axis=0)] computes it over two stacked arrays. *)
Definition two : f32 := f32_of_Z 2.
Definition mean2 (x y : f32) : f32 := f32_div (f32_add x y) two.

(** The path a capture thread ends up holding: the fresh temporary name
    whenever an audio thread exists, whatever the mixer did. *)
Definition audio_file_after (self : RecordThread.t) (env : subrun) : option string :=
  if RecordThread.record_audio self then Some (audio_tmp env)
  else match RecordThread.audio_thread self with
       | Some _ => Some (audio_tmp env)
       | None => RecordThread.audio_file self
       end.

(** Threads are only ever built from an entry of the rate combo box. *)
Definition thread_ok (self : ScreenRecorder.t) : Prop :=
  match ScreenRecorder.record_thread self with
  | Some th => RecordThread.fps th <> 0
  | None => True
  end.

(** The file system once the multiplexer has exited and the clean-up of
    [_export_with_audio] has run: the temporary video was written, the
    multiplexer left [output] (if anything) at the output path, and the
    temporary video and the audio file are gone. *)
Definition after_mux (self : ExportThread.t) (e : ExportThread.env) (a : string)
    (w h : Z) (output : option file) (m : gmap string file) : gmap string file :=
  let video := VideoFile "mp4v" (ExportThread.fps self) (w, h) (ExportThread.frames self) in
  let m1 := <[ExportThread.temp_video e := video]> m in
  let m2 := match output with
            | Some f => <[ExportThread.path self := f]> m1
            | None => m1
            end in
  delete a (delete (ExportThread.temp_video e) m2).

(** An export job with its audio path forgotten. *)
Definition without_audio (self : ExportThread.t) : ExportThread.t :=
  ExportThread.Build (ExportThread.frames self) (ExportThread.path self)
    (ExportThread.fps self) (ExportThread.fmt self) (ExportThread.gif_fps self) None.

(** The progress signals of one pass over [n] frames, the first one for
    frame number [i + 1]. *)
Fixpoint progress_events (i : Z) (n : nat) (total scale : Z) : list event :=
  match n with
  | O => []
  | S n' => progress_updated (i + 1) total scale :: progress_events (i + 1) n' total scale
  end.

(** Whether an event is the terminal signal of an export job. *)
Definition is_finished (ev : event) : bool :=
  match ev with
  | export_finished _ _ => true
  | _ => false
  end.

(** The running counts carried by the frame-captured signals of a log. *)
Definition counts_of (evs : list event) : list Z :=
  omap (fun ev => match ev with
                  | frame_captured c => Some c
                  | _ => None
                  end) evs.

(** A computation is quiet when, from every world, it only appends events
    to the log and none of them is the terminal signal of an export. *)
Definition quiet {A} (m : M A) : Prop :=
  forall w, exists evs,
    out (snd (m w)) = out w ++ evs /\ Forall (fun ev => is_finished ev = false) evs.

(** The rational a binary64 number of the library's [SpecFloat] denotes,
    and an integer as such a number: what [f64_round] is checked against. *)
Definition SF2Q (x : spec_float) : Q :=
  match x with
  | S754_finite s m e =>
      let '(V, U) := pow2_frac e in
      ((if s then Zneg m else Zpos m) * V) # (Z.to_pos U)
  | _ => 0%Q
  end.

Definition Z2SF (n : Z) : spec_float := binary_normalize 53 1024 n 0 false.

(** A frame the animated-image loop can prepare: one no wider than the
    cap of 1000, or a wider one whose sides fit a C int and whose scaled
    height, rows * 1000 / cols, is above one half. *)
Definition gif_preparable (fr : frame) : bool :=
  (cols fr <=? 1000)
  || ((0 <? rows fr) && (rows fr <? 2 ^ 31) && (cols fr <? 2 ^ 31)
      && (cols fr <? 2000 * rows fr)).

(** The rows of a two-dimensional array (none for a one-dimensional one),
    and the rows of a source once coerced by [ensure_stereo]. *)
Definition np_rows (a : ndarray) : list (list f32) :=
  match a with
  | arr1 _ => []
  | arr2 _ rws => rws
  end.

Definition stereo_rows (a : ndarray) : list (list f32) :=
  np_rows (AudioRecordThread.ensure_stereo a).

(** ** Concrete inputs *)

Definition sample (n : Z) : f32 := f32_of_Z n.

(** One chunk of a 5.1 loopback device, of a stereo device and of a mono
    microphone, one row each. *)
Definition surround_chunk : ndarray :=
  arr2 6 [[sample 1; sample 2; sample 3; sample 4; sample 5; sample 6]].
Definition stereo_chunk : ndarray := arr2 2 [[sample 1; sample 3]].
Definition mono_chunk : ndarray := arr2 1 [[sample 5]].

(** A full-HD frame and a small one. *)
Definition hd_frame (i : nat) : frame := Frame 1080 1920 BGR i.
Definition small_frame (i : nat) : frame := Frame 480 640 BGR i.

(** A selection 2560 pixels wide and one pixel high, and an animated-image
    job holding one full-HD frame and then that strip. *)
Definition strip_frame (i : nat) : frame := Frame 1 2560 BGR i.
Definition strip_job : ExportThread.t :=
  ExportThread.Build [hd_frame 0; strip_frame 1] "Rec_1.gif" 30 "gif" 30 None.

(** A raster job with an audio file, the world in which that file exists,
    and an environment whose multiplexer exits with code 1 without leaving
    an output. *)
Definition mux_job : ExportThread.t :=
  ExportThread.Build [hd_frame 0; hd_frame 1] "Rec_1.mp4" 30 "mp4" 10
    (Some "screen_rec_audio_1.wav").
Definition mux_world : world :=
  World (<["screen_rec_audio_1.wav" := WavFile 44100 stereo_chunk]> ∅) [].
Definition mux_fails : ExportThread.env :=
  ExportThread.Env "temp_video_1.mp4" (exited 1 None).

(** A session that has finished a one-frame recording with audio, seven
    seconds long. *)
Definition finished_session : ScreenRecorder.t :=
  ScreenRecorder.Build [hd_frame 0] false None 7 (Some "screen_rec_audio_1.wav").

(** An animated-image job over seven frames. *)
Definition gif_job (fps gif_fps : Z) : ExportThread.t :=
  ExportThread.Build (map hd_frame (seq 0 7)) "Rec_1.gif" fps "gif" gif_fps None.

(** * Properties *)

(** ** The capture loop *)

Section CaptureLoop.

Import RecordThread.

Lemma loop_body_grabbed img fr count w :
  loop_body (grabbed img) (fr, count) w =
  (Ok (fr ++ [cv2_cvtColor img BGR], count + 1),
   World (fs w) (out w ++ [frame_captured (count + 1)])).
Proof. reflexivity. Qed.

Lemma loop_body_grab_raises e fr count w :
  loop_body (grab_raises e) (fr, count) w =
  (Ok (fr, count), World (fs w) (out w ++ [printed_exn "Record error" e])).
Proof. reflexivity. Qed.

Lemma loop_body_convert_raises e fr count w :
  loop_body (convert_raises e) (fr, count) w =
  (Ok (fr, count), World (fs w) (out w ++ [printed_exn "Record error" e])).
Proof. reflexivity. Qed.

Lemma loop_cons tk rest st w :
  loop (tk :: rest) st w =
  match loop_body tk st w with
  | (Ok st', w') => loop rest st' w'
  | (Raise e, w') => (Raise e, w')
  end.
Proof. reflexivity. Qed.

(** The loop never raises, never touches the file system, and leaves the
    frames of its successful iterations, in order, with their count. *)
Lemma loop_total tks : forall fr count w,
  exists evs,
    loop tks (fr, count) w =
    (Ok (fr ++ captured tks, count + Z.of_nat (length (captured tks))),
     World (fs w) (out w ++ evs)).
Proof.
  induction tks as [|tk rest IH]; intros fr count w.
  - exists []. cbn. rewrite !app_nil_r, Z.add_0_r. by destruct w.
  - rewrite loop_cons. destruct tk as [e|e|img].
    + rewrite loop_body_grab_raises.
      destruct (IH fr count (World (fs w) (out w ++ [printed_exn "Record error" e])))
        as [evs ->].
      eexists. cbn [fs out captured omap]. by rewrite <- app_assoc.
    + rewrite loop_body_convert_raises.
      destruct (IH fr count (World (fs w) (out w ++ [printed_exn "Record error" e])))
        as [evs ->].
      eexists. cbn [fs out captured omap]. by rewrite <- app_assoc.
    + rewrite loop_body_grabbed.
      destruct (IH (fr ++ [cv2_cvtColor img BGR]) (count + 1)
                   (World (fs w) (out w ++ [frame_captured (count + 1)])))
        as [evs ->].
      eexists. cbn [fs out]. rewrite <- !app_assoc.
      change (captured (grabbed img :: rest))
        with (cv2_cvtColor img BGR :: captured rest).
      cbn [length app]. f_equal. f_equal. f_equal. lia.
Qed.

End CaptureLoop.

(** ** The mixer's save operation *)

Section Mixer.

Import AudioRecordThread.

Lemma add_source_eq what data parts w :
  add_source what data parts w =
  match data with
  | [] => (Ok parts, w)
  | _ :: _ =>
      match np_concatenate data with
      | Ok a => (Ok (parts ++ [ensure_stereo a]),
                 World (fs w) (out w ++ [printed what]))
      | Raise e => (Raise e, w)
      end
  end.
Proof.
  destruct data as [|c rest]; [reflexivity|].
  unfold add_source, bind, lift.
  destruct (np_concatenate (c :: rest)); reflexivity.
Qed.

(** [save_to_file] returns normally whatever happens inside; it returns
    the path exactly when it wrote the file, and otherwise leaves the file
    system as it was. *)
Lemma save_to_file_cases self failure filepath w :
  (exists w', save_to_file self failure filepath w = (Ok None, w')
              /\ fs w' = fs w)
  \/ (exists w' mixed,
        save_to_file self failure filepath w = (Ok (Some filepath), w')
        /\ failure = None
        /\ fs w' = <[filepath := WavFile (sample_rate self) mixed]> (fs w)
        /\ (system_audio_data self <> [] \/ mic_audio_data self <> [])).
Proof.
  unfold save_to_file, try_except, bind.
  rewrite add_source_eq.
  destruct (system_audio_data self) as [|s0 srest].
  - rewrite add_source_eq.
    destruct (mic_audio_data self) as [|m0 mrest].
    + left. eexists. split; reflexivity.
    + destruct (np_concatenate (m0 :: mrest)) as [b|e].
      * cbn [app]. unfold ret, sf_write.
        destruct failure as [e|].
        -- left. eexists. split; reflexivity.
        -- right. eexists _, _. do 3 (split; [reflexivity|]). first [left; discriminate | right; discriminate].
      * left. eexists. split; reflexivity.
  - destruct (np_concatenate (s0 :: srest)) as [a|e].
    + rewrite add_source_eq.
      destruct (mic_audio_data self) as [|m0 mrest].
      * cbn [app]. unfold ret, sf_write.
        destruct failure as [e|].
        -- left. eexists. split; reflexivity.
        -- right. eexists _, _. do 3 (split; [reflexivity|]). first [left; discriminate | right; discriminate].
      * destruct (np_concatenate (m0 :: mrest)) as [b|e].
        -- cbn [app]. unfold lift.
           destruct (np_mean_axis0 _ _) as [mixed|e].
           ++ unfold ret, sf_write. destruct failure as [e|].
              ** left. eexists. split; reflexivity.
              ** right. eexists _, _. do 3 (split; [reflexivity|]). first [left; discriminate | right; discriminate].
           ++ left. eexists. split; reflexivity.
        -- left. eexists. split; reflexivity.
    + left. eexists. split; reflexivity.
Qed.

(** With no chunk from either source nothing at all happens. *)
Lemma save_to_file_no_data rate failure filepath w :
  save_to_file (Build rate [] []) failure filepath w = (Ok None, w).
Proof. reflexivity. Qed.

End Mixer.

(** ** The capture thread as a whole *)

Section CaptureThread.

Import RecordThread.

Lemma run_total self env w :
  fps self <> 0 ->
  exists th w',
    run self env w = (Ok th, w')
    /\ frames th = captured (ticks env)
    /\ is_recording th = false
    /\ fps th = fps self
    /\ audio_file th = audio_file_after self env
    /\ (fs w' = fs w \/
        exists rate mixed,
          audio_file th = Some (audio_tmp env) /\ sf_failure env = None /\
          fs w' = <[audio_tmp env := WavFile rate mixed]> (fs w) /\
          (record_audio self = true ->
           system_chunks env <> [] \/ mic_chunks env <> [])).
Proof.
  intros Hfps. unfold run, bind, audio_file_after.
  apply Z.eqb_neq in Hfps. rewrite Hfps. unfold ret at 1.
  destruct (loop_total (ticks env) [] 0 w) as [evs ->].
  cbn [fst app].
  set (w1 := World (fs w) (out w ++ evs)).
  destruct (record_audio self).
  - destruct (save_to_file_cases
                (AudioRecordThread.Build 44100 (system_chunks env) (mic_chunks env))
                (sf_failure env) (audio_tmp env) w1)
      as [(w' & -> & Hfs)|(w' & mixed & -> & Hnone & Hfs & Hdata)].
    + eexists _, _. repeat split; cbn; auto.
    + eexists _, _. do 5 (split; [reflexivity|]). right. eexists _, _.
      split; [reflexivity|]. split; [exact Hnone|]. split; [exact Hfs|].
      intros _. exact Hdata.
  - destruct (audio_thread self) as [a|].
    + destruct (save_to_file_cases a (sf_failure env) (audio_tmp env) w1)
        as [(w' & -> & Hfs)|(w' & mixed & -> & Hnone & Hfs & Hdata)].
      * eexists _, _. repeat split; cbn; auto.
      * eexists _, _. do 5 (split; [reflexivity|]). right. eexists _, _.
        split; [reflexivity|]. split; [exact Hnone|]. split; [exact Hfs|].
        discriminate.
    + eexists _, _. repeat split; cbn; auto.
Qed.

End CaptureThread.

(** ** Export jobs always reach a terminal state *)

Lemma export_run_total self e w :
  exists w', ExportThread.run self e w = (Ok tt, w').
Proof.
  unfold ExportThread.run, try_except.
  match goal with |- context [match ?m w with _ => _ end] => destruct (m w) as [[[]|ex] w1] end.
  - eexists; reflexivity.
  - eexists; reflexivity.
Qed.

(** ** The session *)

Section Session.

Import ScreenRecorder.

Variable AUDIO_AVAILABLE : bool.

Lemma rate_value_nonzero r : rate_value r <> 0.
Proof. destruct r; discriminate. Qed.

Lemma thread_ok_init : thread_ok init.
Proof. exact I. Qed.

Lemma thread_ok_start self rate check_audio :
  thread_ok (start_recording AUDIO_AVAILABLE self rate check_audio).
Proof. unfold thread_ok. cbn. apply rate_value_nonzero. Qed.

Lemma start_recording_frames self rate check_audio :
  frames (start_recording AUDIO_AVAILABLE self rate check_audio) = frames self.
Proof. unfold start_recording. destruct (frames self) eqn:E; cbn; congruence. Qed.

(** What a stop does when the sub-run's thread is still running. *)
Lemma stop_recording_running self finish env w th :
  record_thread self = Some th ->
  RecordThread.is_recording th = true ->
  RecordThread.fps th <> 0 ->
  exists self' w',
    stop_recording self finish env w = (Ok self', w')
    /\ frames self' = frames self ++ captured (ticks env)
    /\ audio_file self' = audio_file_after th env
    /\ record_time self' = record_time self
    /\ is_recording self' = false
    /\ thread_ok self'.
Proof.
  intros Hth Hrun Hfps. unfold stop_recording, bind. rewrite Hth, Hrun.
  destruct (run_total th env w Hfps) as (th' & w' & -> & Hfr & _ & Hf & Haf & _).
  eexists _, _. split; [reflexivity|]. cbn.
  rewrite Hfr. repeat split; try done.
  unfold thread_ok. cbn. by rewrite Hf.
Qed.

(** Any stop returns normally and only appends to the frames. *)
Lemma stop_recording_total self finish env w :
  thread_ok self ->
  exists self' w' extra,
    stop_recording self finish env w = (Ok self', w')
    /\ frames self' = frames self ++ extra
    /\ thread_ok self'.
Proof.
  intros Hok. unfold thread_ok in Hok.
  destruct (record_thread self) as [th|] eqn:Hth.
  - destruct (RecordThread.is_recording th) eqn:Hrun.
    + destruct (stop_recording_running self finish env w th Hth Hrun Hok)
        as (self' & w' & Heq & Hfr & _ & _ & _ & Hok').
      by exists self', w', (captured (ticks env)).
    + unfold stop_recording, bind. rewrite Hth, Hrun. unfold ret.
      eexists _, _, _. split; [reflexivity|]. by cbn.
  - unfold stop_recording. rewrite Hth. unfold ret.
    eexists _, _, []. split; [reflexivity|]. cbn. by rewrite app_nil_r.
Qed.

Lemma start_export_total self format gif_fps path rate e w :
  exists w', start_export self format gif_fps path rate e w = (Ok self, w').
Proof.
  unfold start_export. destruct (frames self) as [|f0 fr].
  - by eexists.
  - unfold bind.
    match goal with |- context [ExportThread.run ?j e w] =>
      destruct (export_run_total j e w) as [w' ->] end.
    by eexists.
Qed.

(** Every operation returns normally and leaves the earlier frames as a
    prefix of the later ones. *)
Lemma step_prefix self o w :
  thread_ok self ->
  exists self' w',
    step AUDIO_AVAILABLE self o w = (Ok self', w')
    /\ frames self `prefix_of` frames self'
    /\ thread_ok self'.
Proof.
  intros Hok. destruct o as [rate a|env|env| |format gif_fps path rate e]; cbn [step].
  - eexists _, _. split; [reflexivity|]. split.
    + by rewrite start_recording_frames.
    + apply thread_ok_start.
  - destruct (stop_recording_total self true env w Hok)
      as (self' & w' & extra & -> & Hfr & Hok').
    exists self', w'. repeat split; [|done]. rewrite Hfr. by apply prefix_app_r.
  - destruct (stop_recording_total self false env w Hok)
      as (self' & w' & extra & Heq & Hfr & Hok').
    exists self', w'. repeat split; [done| |done]. rewrite Hfr. by apply prefix_app_r.
  - eexists _, _. by split; [reflexivity|].
  - destruct (start_export_total self format gif_fps path rate e w) as [w' ->].
    by exists self, w'.
Qed.

Lemma steps_prefix ops : forall self w,
  thread_ok self ->
  exists self' w',
    steps AUDIO_AVAILABLE self ops w = (Ok self', w')
    /\ frames self `prefix_of` frames self'
    /\ thread_ok self'.
Proof.
  induction ops as [|o rest IH]; intros self w Hok.
  - by exists self, w.
  - cbn [steps]. unfold bind.
    destruct (step_prefix self o w Hok) as (s1 & w1 & -> & Hp1 & Hok1).
    destruct (IH s1 w1 Hok1) as (s2 & w2 & -> & Hp2 & Hok2).
    exists s2, w2. repeat split; [|done]. by etrans.
Qed.

Lemma steps_app ops1 ops2 : forall self w,
  steps AUDIO_AVAILABLE self (ops1 ++ ops2) w =
  match steps AUDIO_AVAILABLE self ops1 w with
  | (Ok s1, w1) => steps AUDIO_AVAILABLE s1 ops2 w1
  | (Raise e, w1) => (Raise e, w1)
  end.
Proof.
  induction ops1 as [|o rest IH]; intros self w; [reflexivity|].
  cbn [app steps]. unfold bind.
  destruct (step AUDIO_AVAILABLE self o w) as [[s1|e] w1]; [apply IH|reflexivity].
Qed.

(** A start followed by the stop of the sub-run it began. *)
Lemma start_then_stop self rate a finish env w :
  exists s w',
    stop_recording (start_recording AUDIO_AVAILABLE self rate a) finish env w
      = (Ok s, w')
    /\ frames s = frames self ++ captured (ticks env)
    /\ thread_ok s.
Proof.
  edestruct (stop_recording_running
               (start_recording AUDIO_AVAILABLE self rate a) finish env w)
    as (s & w' & Heq & Hfr & _ & _ & _ & Hok); [reflexivity|reflexivity| |].
  - cbn. apply rate_value_nonzero.
  - exists s, w'. rewrite start_recording_frames in Hfr. done.
Qed.

End Session.

(** ** Export: the raster-video paths *)

Section ExportPaths.

Import ExportThread.

Lemma emit_progress_events n : forall i total scale w,
  exists evs,
    emit_progress i n total scale w = (Ok tt, World (fs w) (out w ++ evs)).
Proof.
  induction n as [|n IH]; intros i total scale w.
  - exists []. cbn. rewrite app_nil_r. by destruct w.
  - cbn [emit_progress]. unfold bind, emit.
    destruct (IH (i + 1) total scale
                (World (fs w) (out w ++ [progress_updated (i + 1) total scale])))
      as [evs ->].
    eexists. cbn [fs out]. by rewrite <- app_assoc.
Qed.

(** [if os.path.exists(p): os.remove(p)] deletes [p] and cannot raise. *)
Lemma remove_if_exists p w :
  bind (path_exists p) (fun b => if b then os_remove p else ret tt) w
  = (Ok tt, World (delete p (fs w)) (out w)).
Proof.
  unfold bind, path_exists, os_remove, ret.
  destruct (fs w !! p) as [f|] eqn:E.
  - rewrite bool_decide_eq_true_2 by eauto. by rewrite E.
  - rewrite bool_decide_eq_false_2 by (intros [? ?]; congruence).
    rewrite delete_id by done. by destruct w.
Qed.

Lemma bind_ok {A B} (m : M A) (k : A -> M B) w a w' :
  m w = (Ok a, w') -> bind m k w = k a w'.
Proof. intros H. unfold bind. by rewrite H. Qed.

Lemma bind_raise {A B} (m : M A) (k : A -> M B) w e w' :
  m w = (Raise e, w') -> bind m k w = (Raise e, w').
Proof. intros H. unfold bind. by rewrite H. Qed.

Lemma subprocess_run_exited rc output p w :
  subprocess_run (exited rc output) p w
  = (Ok rc, World (match output with Some f => <[p := f]> (fs w) | None => fs w end)
                  (out w)).
Proof. destruct output; [reflexivity|]. by destruct w. Qed.

Lemma after_mux_no_temp self e a w h output m :
  after_mux self e a w h output m !! temp_video e = None.
Proof.
  unfold after_mux.
  destruct (decide (a = temp_video e)) as [->|Hne].
  - apply lookup_delete_eq.
  - rewrite lookup_delete_ne by done. apply lookup_delete_eq.
Qed.

Lemma export_with_audio_exited self e a w h total rc output wd :
  ffmpeg e = exited rc output ->
  exists evs,
    _export_with_audio self e a w h total wd
    = (Ok tt, World (after_mux self e a w h output (fs wd)) (out wd ++ evs)).
Proof.
  intros Hff. unfold _export_with_audio, bind at 1, write_file.
  unfold bind at 1.
  edestruct emit_progress_events as [evs ->].
  unfold try_except. rewrite Hff.
  erewrite bind_ok by apply subprocess_run_exited.
  erewrite bind_ok by reflexivity.
  erewrite bind_ok by apply remove_if_exists.
  erewrite bind_ok by apply remove_if_exists.
  cbn [fs out].
  fold (after_mux self e a w h output (fs wd)).
  destruct (rc =? 0); cbn [negb].
  - eexists. unfold ret. by rewrite <- app_assoc.
  - unfold shutil_copy. cbn [fs out]. rewrite after_mux_no_temp.
    erewrite bind_ok by reflexivity.
    unfold bind, path_exists. cbn [fs out]. rewrite after_mux_no_temp.
    rewrite bool_decide_eq_false_2 by (intros [? ?]; congruence).
    eexists. unfold ret. by rewrite <- !app_assoc.
Qed.
End ExportPaths.

Section ExportRun.

Import ExportThread.

Lemma export_with_audio_launch_fails self e a w h total ex wd :
  ffmpeg e = launch_raises ex ->
  temp_video e <> path self ->
  exists evs,
    _export_with_audio self e a w h total wd
    = (Ok tt,
       World (<[path self := VideoFile "mp4v" (fps self) (w, h) (frames self)]>
                (<[temp_video e := VideoFile "mp4v" (fps self) (w, h) (frames self)]>
                   (fs wd)))
             (out wd ++ evs)).
Proof.
  intros Hff Hne. unfold _export_with_audio, bind at 1, write_file.
  unfold bind at 1.
  edestruct emit_progress_events as [evs ->].
  unfold try_except. rewrite Hff.
  erewrite bind_raise by reflexivity.
  erewrite bind_ok by reflexivity.
  unfold bind, path_exists, shutil_copy. cbn [fs out].
  rewrite lookup_insert_eq.
  rewrite bool_decide_eq_true_2 by eauto.
  cbv beta iota. cbn [fs out]. rewrite lookup_insert_eq.
  rewrite decide_False by done.
  eexists. by rewrite <- app_assoc.
Qed.

Lemma run_nonempty (self : t) f0 rest :
  frames self = f0 :: rest ->
  (Z.of_nat (length (frames self)) =? 0) = false.
Proof. intros ->. cbn [length]. apply Z.eqb_neq. lia. Qed.

(** A raster job whose audio file is there goes through the multiplexer
    path, and its normal return is reported as success. *)
Lemma run_with_audio self e w f0 rest a w1 :
  frames self = f0 :: rest ->
  fmt self <> "gif" ->
  audio_file self = Some a ->
  a <> "" ->
  is_Some (fs w !! a) ->
  _export_with_audio self e a (cols f0) (rows f0)
    (Z.of_nat (length (frames self))) w = (Ok tt, w1) ->
  run self e w = (Ok tt, World (fs w1) (out w1 ++ [export_finished true (path self)])).
Proof.
  intros Hfr Hfmt Ha Hne Hex Hbody. unfold run, try_except.
  rewrite (run_nonempty self f0 rest Hfr).
  apply String.eqb_neq in Hfmt. rewrite Hfmt.
  rewrite Hfr in *. rewrite Ha.
  assert (truthy (Some a) = true) as ->.
  { cbn. apply String.eqb_neq in Hne. by rewrite Hne. }
  unfold bind at 1. unfold bind at 1. unfold path_exists at 1.
  rewrite bool_decide_eq_true_2 by done.
  rewrite Hbody. reflexivity.
Qed.

(** A raster job without a usable audio file writes the frames straight
    to the output path. *)
Lemma run_video_only self e w f0 rest :
  frames self = f0 :: rest ->
  fmt self <> "gif" ->
  match audio_file self with
  | Some a => a = "" \/ fs w !! a = None
  | None => True
  end ->
  exists evs,
    run self e w
    = (Ok tt,
       World (<[path self := VideoFile (fourcc_map (fmt self)) (fps self)
                               (cols f0, rows f0) (frames self)]> (fs w))
             (out w ++ evs ++ [export_finished true (path self)])).
Proof.
  intros Hfr Hfmt Ha. unfold run, try_except.
  rewrite (run_nonempty self f0 rest Hfr).
  apply String.eqb_neq in Hfmt. rewrite Hfmt.
  assert (exists evs,
    _export_video_only self (cols f0) (rows f0) (Z.of_nat (length (frames self))) w
    = (Ok tt, World (<[path self := VideoFile (fourcc_map (fmt self)) (fps self)
                               (cols f0, rows f0) (frames self)]> (fs w))
             (out w ++ evs))) as [evs Hvo].
  { unfold _export_video_only, bind, write_file.
    edestruct emit_progress_events as [evs ->]. by exists evs. }
  exists evs. rewrite Hfr in *.
  destruct (audio_file self) as [a|].
  - destruct Ha as [->|Hnone].
    + cbn [truthy String.eqb negb]. unfold bind at 1. unfold bind at 1.
      unfold ret at 1. rewrite Hvo. unfold emit. cbn [fs out].
      by rewrite <- app_assoc.
    + unfold bind at 1. unfold bind at 1.
      assert ((if truthy (Some a) then path_exists a else ret false) w = (Ok false, w)) as ->.
      { destruct (truthy (Some a)); [|reflexivity].
        unfold path_exists. rewrite bool_decide_eq_false_2; [done|].
        intros [? ?]; congruence. }
      rewrite Hvo. unfold emit. cbn [fs out]. by rewrite <- app_assoc.
  - unfold bind at 1. unfold bind at 1. unfold ret at 1.
    rewrite Hvo. unfold emit. cbn [fs out]. by rewrite <- app_assoc.
Qed.

End ExportRun.

(** ** Export: the animated-image path *)

Section Slicing.

Context {A : Type}.

(** [lst[::step]] holds, at position [i], the element of [lst] at position
    [i * step]. *)
Lemma slice_from_lookup (step : nat) (lst : list A) : forall skip i,
  (1 <= step)%nat ->
  slice_from step skip lst !! i = lst !! (skip + i * step)%nat.
Proof.
  induction lst as [|x rest IH]; intros skip i Hstep.
  - by rewrite !lookup_nil.
  - destruct skip as [|skip']; cbn [slice_from].
    + destruct i as [|i']; [reflexivity|].
      cbn [lookup list_lookup]. rewrite IH by done.
      replace (0 + S i' * step)%nat with (S (Nat.pred step + i' * step)) by lia.
      reflexivity.
    + rewrite IH by done. reflexivity.
Qed.

Lemma slice_step_lookup (step : Z) (lst : list A) (i : nat) :
  1 <= step ->
  slice_step step lst !! i = lst !! (i * Z.to_nat step)%nat.
Proof.
  intros Hstep. unfold slice_step. rewrite slice_from_lookup by lia. reflexivity.
Qed.

(** So it has one element for each multiple of [step] below the length. *)
Lemma slice_step_length (step : Z) (lst : list A) (i : nat) :
  1 <= step ->
  (i < length (slice_step step lst))%nat <-> (i * Z.to_nat step < length lst)%nat.
Proof.
  intros Hstep. rewrite <- !lookup_lt_is_Some. by rewrite slice_step_lookup.
Qed.

Lemma slice_step_one (lst : list A) : slice_step 1 lst = lst.
Proof.
  apply list_eq. intros i. rewrite slice_step_lookup by lia.
  f_equal. change (Z.to_nat 1) with 1%nat. lia.
Qed.

End Slicing.

Section Gif.

Import ExportThread.

Lemma gif_step_value fps gif_fps :
  gif_fps <> 0 -> gif_step fps gif_fps = Ok (Z.max 1 (fps / gif_fps)).
Proof.
  intros H. unfold gif_step, floordiv. apply Z.eqb_neq in H. by rewrite H.
Qed.

(** *** Rounding *)

(** [cvRound] returns an integer nearest to the rational it is given. *)
Lemma cvRound_nearest (n : Z) (d : positive) :
  2 * Z.abs (cvRound (n # d) * Zpos d - n) <= Zpos d.
Proof.
  unfold cvRound. cbn [Qnum Qden].
  pose proof (Z.div_mod n (Zpos d) ltac:(lia)) as Hdm.
  pose proof (Z.mod_pos_bound n (Zpos d) ltac:(lia)) as Hb.
  set (k := n / Zpos d) in *. set (r := n mod Zpos d) in *.
  destruct (2 * r <? Zpos d) eqn:E1; [apply Z.ltb_lt in E1; nia|].
  apply Z.ltb_ge in E1.
  destruct (Zpos d <? 2 * r) eqn:E2; [apply Z.ltb_lt in E2; nia|].
  apply Z.ltb_ge in E2.
  destruct (Z.even k); nia.
Qed.

Lemma cvRound_bounds (q : Q) :
  (inject_Z (cvRound q) - (1 # 2) <= q /\ q <= inject_Z (cvRound q) + (1 # 2))%Q.
Proof.
  destruct q as [n d].
  pose proof (cvRound_nearest n d) as H.
  set (k := cvRound (n # d)) in *.
  unfold Qle, Qminus, Qplus, Qopp, inject_Z. cbn [Qnum Qden].
  rewrite ?Pos2Z.inj_mul. split; lia.
Qed.

Lemma pow2_frac_pos e : 0 < fst (pow2_frac e) /\ 0 < snd (pow2_frac e).
Proof. unfold pow2_frac. cbn. split; apply Z.pow_pos_nonneg; lia. Qed.

(** [pow2_frac e] is [2^p / 2^q] whenever [e = p - q]. *)
Lemma pow2_frac_spec e p q :
  0 <= p -> 0 <= q -> e = p - q ->
  fst (pow2_frac e) * 2 ^ q = snd (pow2_frac e) * 2 ^ p.
Proof.
  intros Hp Hq ->. unfold pow2_frac. cbn [fst snd].
  destruct (Z.le_gt_cases q p) as [H|H].
  - rewrite (Z.max_r 0 (p - q)), (Z.max_l 0 (- (p - q))) by lia.
    rewrite <- Z.pow_add_r by lia. rewrite Z.pow_0_r, Z.mul_1_l. f_equal; lia.
  - rewrite (Z.max_l 0 (p - q)), (Z.max_r 0 (- (p - q))) by lia.
    rewrite Z.pow_0_r, Z.mul_1_l, <- Z.pow_add_r by lia. f_equal; lia.
Qed.

(** The exponent [f64_round] settles on leaves a scaled value of at least
    2^52 for the final rounding to an integer significand. *)
Lemma f64_exponent_ok (a d : Z) :
  0 < a -> 0 < d ->
  let e0 := Z.log2 a - Z.log2 d - 53 in
  let e := if 2 ^ 53 * (d * fst (pow2_frac e0)) <=? a * snd (pow2_frac e0)
           then e0 + 1 else e0 in
  2 ^ 52 * (d * fst (pow2_frac e)) <= a * snd (pow2_frac e).
Proof.
  intros Ha Hd e0 e.
  pose proof (Z.log2_spec a Ha) as [HA1 HA2].
  pose proof (Z.log2_spec d Hd) as [HB1 HB2].
  pose proof (Z.log2_nonneg a) as HA0. pose proof (Z.log2_nonneg d) as HB0.
  set (A := Z.log2 a) in *. set (B := Z.log2 d) in *.
  rewrite Z.pow_succ_r in HA2, HB2 by lia.
  pose proof (pow2_frac_spec e0 A (B + 53) HA0 ltac:(lia) ltac:(lia)) as H0.
  pose proof (pow2_frac_pos e0) as [HV0 HU0].
  rewrite Z.pow_add_r in H0 by lia.
  assert (0 < 2 ^ A) as HpA by (apply Z.pow_pos_nonneg; lia).
  assert (0 < 2 ^ B) as HpB by (apply Z.pow_pos_nonneg; lia).
  subst e. destruct (_ <=? _) eqn:E.
  - apply Z.leb_le in E.
    pose proof (pow2_frac_spec (e0 + 1) (A + 1) (B + 53)
                  ltac:(lia) ltac:(lia) ltac:(lia)) as H1.
    pose proof (pow2_frac_pos (e0 + 1)) as [HV1 HU1].
    rewrite !Z.pow_add_r in H1 by lia.
    set (V0 := fst (pow2_frac e0)) in *. set (U0 := snd (pow2_frac e0)) in *.
    set (V1 := fst (pow2_frac (e0 + 1))) in *.
    set (U1 := snd (pow2_frac (e0 + 1))) in *.
    change (2 ^ 1) with 2 in H1. change (2 ^ 53) with 9007199254740992 in *.
    change (2 ^ 52) with 4503599627370496.
    assert (V1 * U0 = 2 * U1 * V0) as Hrel.
    { apply (Z.mul_cancel_r _ _ (2 ^ B * 9007199254740992)); [lia|].
      transitivity (U1 * (2 ^ A * 2) * U0); [rewrite <- H1; ring|].
      transitivity (2 * U1 * (V0 * (2 ^ B * 9007199254740992)));
        [rewrite H0; ring|ring]. }
    apply (Z.mul_le_mono_pos_r _ _ U0); [lia|].
    transitivity (4503599627370496 * d * (2 * U1 * V0)); [rewrite <- Hrel; lia|].
    nia.
  - set (V0 := fst (pow2_frac e0)) in *. set (U0 := snd (pow2_frac e0)) in *.
    change (2 ^ 53) with 9007199254740992 in *.
    change (2 ^ 52) with 4503599627370496.
    apply (Z.mul_le_mono_pos_r _ _ (2 ^ B * 9007199254740992)); [lia|].
    transitivity (4503599627370496 * d * (U0 * 2 ^ A)); [rewrite <- H0; lia|].
    assert (d * 2 ^ A <= 2 * 2 ^ B * a) as Hda by nia.
    replace (4503599627370496 * d * (U0 * 2 ^ A))
      with (4503599627370496 * U0 * (d * 2 ^ A)) by ring.
    replace (a * U0 * (2 ^ B * 9007199254740992))
      with (4503599627370496 * U0 * (2 * 2 ^ B * a)) by ring.
    apply Z.mul_le_mono_nonneg_l; lia.
Qed.

(** Rounding to binary64 moves a positive number by at most the relative
    amount 2^-53. *)
Lemma f64_round_rel (q : Q) :
  (0 < q)%Q ->
  (q * (1 - (1 # 9007199254740992)) <= f64_round q
   /\ f64_round q <= q * (1 + (1 # 9007199254740992)))%Q.
Proof.
  destruct q as [n d]. intros Hq.
  assert (0 < n) as Hn by (unfold Qlt in Hq; cbn in Hq; lia).
  unfold f64_round. cbn [Qnum Qden].
  destruct (n =? 0) eqn:E; [apply Z.eqb_eq in E; lia|].
  rewrite (Z.abs_eq n), (Z.sgn_pos n) by lia.
  pose proof (f64_exponent_ok n (Zpos d) Hn ltac:(lia)) as Hexp.
  cbv zeta in Hexp.
  set (e0 := Z.log2 n - Z.log2 (Z.pos d) - 53) in *.
  rewrite (surjective_pairing (pow2_frac e0)).
  set (e := if _ <=? _ then e0 + 1 else e0) in *.
  rewrite (surjective_pairing (pow2_frac e)).
  pose proof (pow2_frac_pos e) as [HV HU].
  set (V := fst (pow2_frac e)) in *. set (U := snd (pow2_frac e)) in *.
  pose proof (cvRound_nearest (n * U) (Z.to_pos (Zpos d * V))) as Hm.
  set (m := cvRound _) in *.
  rewrite Z2Pos.id in Hm by lia.
  change (2 ^ 52) with 4503599627370496 in Hexp.
  unfold Qle, Qmult, Qminus, Qplus, Qopp. cbn [Qnum Qden].
  rewrite ?Pos2Z.inj_mul, ?Z2Pos.id by lia.
  set (X := Zpos d * V) in *. set (Y := n * U) in *.
  split.
  - replace (n * (1 * 9007199254740992 + -1 * 1) * U) with (9007199254740991 * Y)
      by (unfold Y; ring).
    replace (1 * m * V * (Zpos d * (1 * 9007199254740992)))
      with (9007199254740992 * (m * X)) by (unfold X; ring).
    lia.
  - replace (n * (1 * 9007199254740992 + 1 * 1) * U) with (9007199254740993 * Y)
      by (unfold Y; ring).
    replace (1 * m * V * (Zpos d * (1 * 9007199254740992)))
      with (9007199254740992 * (m * X)) by (unfold X; ring).
    lia.
Qed.

Lemma Qmake_inject (n w : Z) :
  0 < w -> ((n # Z.to_pos w) * inject_Z w == inject_Z n)%Q.
Proof.
  intros H. unfold Qeq, Qmult, inject_Z. cbn [Qnum Qden].
  rewrite Pos.mul_1_r, Z2Pos.id by lia. ring.
Qed.

(** A side of [a] pixels scaled by the float [1000 / w] and rounded, as
    [cv2.resize] does it, is an integer nearest to [a * 1000 / w]: the two
    roundings to binary64 cannot carry the product across a half-integer
    boundary other than the one it may sit on. *)
Lemma resize_dim (a w : Z) :
  1000 < w -> 0 < a < 2 ^ 31 ->
  let s := f64_round (1000 # Z.to_pos w) in
  let k := cvRound (f64_round (inject_Z a * s)) in
  2 * Z.abs (k * w - 1000 * a) <= w.
Proof.
  intros Hw Ha s k.
  change (2 ^ 31) with 2147483648 in Ha.
  set (x := (1000 # Z.to_pos w)%Q) in *.
  assert (0 < x)%Q as Hx0 by reflexivity.
  pose proof (Qmake_inject 1000 w ltac:(lia)) as Hxw. fold x in Hxw.
  pose proof (f64_round_rel x Hx0) as [Hs1 Hs2]. fold s in Hs1, Hs2.
  assert (0 < inject_Z a)%Q as Ha0 by (rewrite <- (Zlt_Qlt 0); lia).
  assert (inject_Z a <= 2147483648)%Q as Ha1.
  { change (2147483648%Q) with (inject_Z 2147483648). rewrite <- Zle_Qle. lia. }
  assert (0 < inject_Z w)%Q as Hw0 by (rewrite <- (Zlt_Qlt 0); lia).
  set (qa := inject_Z a) in *. set (qw := inject_Z w) in *.
  assert (0 < s)%Q as Hs0 by lra.
  set (p := (qa * s)%Q) in *.
  assert (0 < p)%Q as Hp0 by (unfold p; nra).
  pose proof (f64_round_rel p Hp0) as [HF1 HF2].
  pose proof (cvRound_bounds (f64_round p)) as [Hk1 Hk2]. fold k in Hk1, Hk2.
  set (F := f64_round p) in *. set (qk := inject_Z k) in *.
  assert (qa * x * qw == 1000 * qa)%Q as Hy by (rewrite <- Hxw; ring).
  set (y := (qa * x)%Q) in *.
  assert (0 < y)%Q as Hy0 by (unfold y; nra).
  assert (y * (1 - (1 # 9007199254740992)) <= p)%Q as Hp1 by (unfold p, y; nra).
  assert (p <= y * (1 + (1 # 9007199254740992)))%Q as Hp2 by (unfold p, y; nra).
  assert (2 * (qk * qw - 1000 * qa) < qw + 1)%Q as Hup by nra.
  assert (- qw - 1 < 2 * (qk * qw - 1000 * qa))%Q as Hlo by nra.
  unfold qk, qw, qa in Hup, Hlo.
  assert (2 * (k * w) < w + 1 + 2000 * a).
  { rewrite Zlt_Qlt. rewrite !inject_Z_plus, !inject_Z_mult.
    change (inject_Z 2) with 2%Q. change (inject_Z 1) with 1%Q.
    change (inject_Z 2000) with 2000%Q. lra. }
  assert (2000 * a < 2 * (k * w) + w + 1).
  { rewrite Zlt_Qlt. rewrite !inject_Z_plus, !inject_Z_mult.
    change (inject_Z 2) with 2%Q. change (inject_Z 1) with 1%Q.
    change (inject_Z 2000) with 2000%Q. lra. }
  lia.
Qed.

(** *** One frame *)

Lemma gif_frame_small fr :
  cols fr <= 1000 -> gif_frame fr = Ok (cv2_cvtColor fr RGB).
Proof.
  intros H. unfold gif_frame. cbn [cols cv2_cvtColor].
  destruct (1000 <? cols fr) eqn:E; [apply Z.ltb_lt in E; lia|reflexivity].
Qed.

(** What [cv2.resize] is asked for a frame wider than the cap, and what it
    computes: a width of 1000 and a height nearest to rows * 1000 / cols. *)
Lemma gif_frame_resize fr :
  1000 < cols fr < 2 ^ 31 -> 0 < rows fr < 2 ^ 31 ->
  let scale := f64_round (1000 # Z.to_pos (cols fr)) in
  let k := cvRound (f64_round (inject_Z (rows fr) * scale)) in
  gif_frame fr = cv2_resize (cv2_cvtColor fr RGB) scale scale
  /\ cv2_resize (cv2_cvtColor fr RGB) scale scale
     = (if k <=? 0 then Raise (CvError "!dsize.empty()")
        else Ok (Frame k 1000 RGB (pix fr)))
  /\ 2 * Z.abs (k * cols fr - 1000 * rows fr) <= cols fr.
Proof.
  intros Hc Hr scale k.
  assert (gif_frame fr = cv2_resize (cv2_cvtColor fr RGB) scale scale) as Heq.
  { unfold gif_frame. cbn [cols cv2_cvtColor].
    destruct Hc as [Hc _]. apply Z.ltb_lt in Hc. by rewrite Hc. }
  split; [exact Heq|].
  pose proof (resize_dim (rows fr) (cols fr) (proj1 Hc) Hr) as Hk.
  pose proof (resize_dim (cols fr) (cols fr) (proj1 Hc) ltac:(lia)) as Hwd.
  cbv zeta in Hk, Hwd. fold scale in Hk, Hwd. fold k in Hk.
  split; [|exact Hk].
  assert (cvRound (f64_round (inject_Z (cols fr) * scale)) = 1000) as Hwidth by nia.
  assert (Qle_bool scale 0 = false) as Hpos.
  { destruct (Qle_bool scale 0) eqn:E; [|reflexivity].
    apply Qle_bool_iff in E.
    pose proof (f64_round_rel (1000 # Z.to_pos (cols fr)) ltac:(reflexivity))
      as [Hs _].
    fold scale in Hs.
    assert (0 < 1000 # Z.to_pos (cols fr))%Q by reflexivity. lra. }
  unfold cv2_resize. cbn [rows cols chan pix cv2_cvtColor].
  rewrite Hpos. fold k. rewrite Hwidth.
  destruct (cols fr <=? 0) eqn:E1; [apply Z.leb_le in E1; lia|].
  destruct (rows fr <=? 0) eqn:E2; [apply Z.leb_le in E2; lia|].
  reflexivity.
Qed.

(** A frame wider than the cap whose scaled height is above one half is
    resized to a width of 1000 and a height nearest to rows * 1000 / cols. *)
Lemma gif_frame_wide fr :
  1000 < cols fr < 2 ^ 31 -> 0 < rows fr < 2 ^ 31 ->
  cols fr < 2000 * rows fr ->
  exists k,
    gif_frame fr = Ok (Frame k 1000 RGB (pix fr))
    /\ 0 < k
    /\ 2 * Z.abs (k * cols fr - 1000 * rows fr) <= cols fr.
Proof.
  intros Hc Hr Hflat.
  destruct (gif_frame_resize fr Hc Hr) as (Heq & Hres & Hk). cbv zeta in *.
  set (k := cvRound _) in *. exists k.
  assert (0 < k) as Hk0 by nia.
  rewrite Heq, Hres.
  destruct (k <=? 0) eqn:E; [apply Z.leb_le in E; lia|]. done.
Qed.


Lemma gif_preparable_ok fr :
  gif_preparable fr = true -> exists g, gif_frame fr = Ok g.
Proof.
  unfold gif_preparable. intros H.
  destruct (cols fr <=? 1000) eqn:E.
  - apply Z.leb_le in E. rewrite (gif_frame_small fr E). eauto.
  - apply Z.leb_gt in E. cbn [orb] in H.
    apply andb_prop in H as [H H4]. apply andb_prop in H as [H H3].
    apply andb_prop in H as [H1 H2].
    apply Z.ltb_lt in H1, H2, H3, H4.
    destruct (gif_frame_wide fr ltac:(lia) ltac:(lia) H4) as (k & -> & _).
    eauto.
Qed.

(** *** The loop *)

(** When every selected frame can be prepared the loop returns the prepared
    images in order, having emitted only progress signals. *)
Lemma gif_loop_ok selected : forall imgs i count acc w,
  Forall2 (fun f g => gif_frame f = Ok g) selected imgs ->
  exists evs,
    gif_loop i selected count acc w
    = (Ok (acc ++ imgs), World (fs w) (out w ++ evs)).
Proof.
  induction selected as [|fr rest IH]; intros imgs i count acc w H.
  - apply Forall2_nil_inv_l in H as ->. exists [].
    cbn. rewrite !app_nil_r. by destruct w.
  - apply Forall2_cons_inv_l in H as (g & imgs' & Hg & Hrest & ->).
    cbn [gif_loop]. unfold bind at 1, lift at 1. rewrite Hg.
    unfold bind at 1, emit at 1.
    destruct (IH imgs' (i + 1) count (acc ++ [g])
                (World (fs w) (out w ++ [progress_updated (i + 1) count 100])) Hrest)
      as [evs ->].
    exists (progress_updated (i + 1) count 100 :: evs). cbn [fs out].
    by rewrite <- !app_assoc.
Qed.

(** The loop stops at the first frame that cannot be prepared, with that
    frame's exception, the file system as it found it. *)
Lemma gif_loop_raise done : forall fr ex rest i count acc w,
  Forall (fun f => exists g, gif_frame f = Ok g) done ->
  gif_frame fr = Raise ex ->
  exists evs,
    gif_loop i (done ++ fr :: rest) count acc w
    = (Raise ex, World (fs w) (out w ++ evs)).
Proof.
  induction done as [|f0 done IH]; intros fr ex rest i count acc w Hd Hfr.
  - exists []. cbn [app gif_loop]. unfold bind, lift. rewrite Hfr.
    rewrite app_nil_r. by destruct w.
  - apply Forall_cons in Hd as [[g Hg] Hd].
    cbn [app gif_loop]. unfold bind at 1, lift at 1. rewrite Hg.
    unfold bind at 1, emit at 1.
    destruct (IH fr ex rest (i + 1) count (acc ++ [g])
                (World (fs w) (out w ++ [progress_updated (i + 1) count 100])) Hd Hfr)
      as [evs ->].
    exists (progress_updated (i + 1) count 100 :: evs). cbn [fs out].
    by rewrite <- !app_assoc.
Qed.

(** Frames that can all be prepared have their prepared images. *)
Lemma gif_frames_exist selected :
  Forall (fun f => gif_preparable f = true) selected ->
  exists imgs, Forall2 (fun f g => gif_frame f = Ok g) selected imgs.
Proof.
  induction 1 as [|fr rest Hfr _ [imgs IH]].
  - exists []. constructor.
  - destruct (gif_preparable_ok fr Hfr) as [g Hg].
    exists (g :: imgs). by constructor.
Qed.

Lemma slice_from_Forall {A} (P : A -> Prop) (step : nat) (lst : list A) :
  forall skip, Forall P lst -> Forall P (slice_from step skip lst).
Proof.
  induction lst as [|x rest IH]; intros skip H; [constructor|].
  apply Forall_cons in H as [Hx Hrest].
  destruct skip; cbn [slice_from]; auto.
Qed.

(** An animated-image job with frames all of whose selected frames can be
    prepared writes, at the target rate, their prepared images. *)
Lemma run_gif self e w f0 rest step imgs :
  frames self = f0 :: rest ->
  fmt self = "gif" ->
  gif_step (fps self) (gif_fps self) = Ok step ->
  Forall2 (fun f g => gif_frame f = Ok g) (slice_step step (frames self)) imgs ->
  exists evs,
    run self e w
    = (Ok tt,
       World (<[path self := GifFile (gif_fps self) imgs]> (fs w))
             (out w ++ evs ++ [export_finished true (path self)])).
Proof.
  intros Hfr Hfmt Hstep Himgs. unfold run, try_except.
  rewrite (run_nonempty self f0 rest Hfr). rewrite Hfmt.
  change (String.eqb "gif" "gif") with true. cbv iota.
  unfold bind at 1. unfold bind at 1. unfold lift at 1. rewrite Hstep.
  unfold bind at 1.
  edestruct (gif_loop_ok (slice_step step (frames self)) imgs) as [evs ->];
    [exact Himgs|].
  exists evs. unfold write_file, emit. cbn [fs out app].
  by rewrite <- app_assoc.
Qed.

(** An animated-image job one of whose selected frames cannot be prepared
    writes nothing and reports that frame's exception. *)
Lemma run_gif_raise self e w f0 rest step done fr ex rest' :
  frames self = f0 :: rest ->
  fmt self = "gif" ->
  gif_step (fps self) (gif_fps self) = Ok step ->
  slice_step step (frames self) = done ++ fr :: rest' ->
  Forall (fun f => exists g, gif_frame f = Ok g) done ->
  gif_frame fr = Raise ex ->
  exists evs,
    run self e w
    = (Ok tt,
       World (fs w) (out w ++ evs ++ [export_finished false (exn_str ex)])).
Proof.
  intros Hfr Hfmt Hstep Hsel Hdone Hex. unfold run, try_except.
  rewrite (run_nonempty self f0 rest Hfr). rewrite Hfmt.
  change (String.eqb "gif" "gif") with true. cbv iota.
  unfold bind at 1. unfold bind at 1. unfold lift at 1. rewrite Hstep.
  unfold bind at 1. rewrite Hsel.
  edestruct (gif_loop_raise done fr ex rest') as [evs ->]; [exact Hdone|exact Hex|].
  exists evs. unfold emit. cbn [fs out]. by rewrite <- app_assoc.
Qed.

(** The loop itself never touches the file system. *)
Lemma gif_loop_outcome selected : forall i count acc w,
  exists r evs,
    gif_loop i selected count acc w = (r, World (fs w) (out w ++ evs)).
Proof.
  induction selected as [|fr rest IH]; intros i count acc w.
  - exists (Ok acc), []. cbn. rewrite app_nil_r. by destruct w.
  - cbn [gif_loop]. unfold bind at 1, lift at 1.
    destruct (gif_frame fr) as [g|ex].
    + unfold bind at 1, emit at 1.
      destruct (IH (i + 1) count (acc ++ [g])
                  (World (fs w) (out w ++ [progress_updated (i + 1) count 100])))
        as (r & evs & ->).
      exists r, (progress_updated (i + 1) count 100 :: evs). cbn [fs out].
      by rewrite <- !app_assoc.
    + exists (Raise ex), []. rewrite app_nil_r. by destruct w.
Qed.

(** Whatever its frames and rates, an animated-image job leaves every
    path other than its output path as it was. *)
Lemma run_gif_elsewhere self e w :
  fmt self = "gif" ->
  exists w',
    run self e w = (Ok tt, w')
    /\ forall p, p <> path self -> fs w' !! p = fs w !! p.
Proof.
  intros Hfmt. unfold run, try_except.
  destruct (Z.of_nat (length (frames self)) =? 0).
  { eexists. split; [reflexivity|]. done. }
  rewrite Hfmt. change (String.eqb "gif" "gif") with true. cbv iota.
  unfold bind at 1. unfold bind at 1. unfold lift at 1.
  destruct (gif_step (fps self) (gif_fps self)) as [step|ex].
  - unfold bind at 1.
    destruct (gif_loop_outcome (slice_step step (frames self)) 0
                (Z.of_nat (length (slice_step step (frames self)))) [] w)
      as (r & evs & ->).
    destruct r as [imgs|ex].
    + eexists. split; [reflexivity|]. cbn [fs write_file].
      intros p Hp. by rewrite lookup_insert_ne.
    + eexists. split; [reflexivity|]. done.
  - eexists. split; [reflexivity|]. done.
Qed.

(** With frames that can all be prepared the job writes as many images as
    it selected frames. *)
Lemma run_gif_preparable self e w f0 rest step :
  frames self = f0 :: rest ->
  fmt self = "gif" ->
  gif_step (fps self) (gif_fps self) = Ok step ->
  Forall (fun f => gif_preparable f = true) (frames self) ->
  exists imgs evs,
    length imgs = length (slice_step step (frames self))
    /\ run self e w
       = (Ok tt,
          World (<[path self := GifFile (gif_fps self) imgs]> (fs w))
                (out w ++ evs ++ [export_finished true (path self)])).
Proof.
  intros Hfr Hfmt Hstep Hall.
  destruct (gif_frames_exist (slice_step step (frames self))) as [imgs Himgs].
  { by apply slice_from_Forall. }
  destruct (run_gif self e w f0 rest step imgs Hfr Hfmt Hstep Himgs) as [evs Hrun].
  exists imgs, evs. split; [|exact Hrun].
  symmetry. exact (Forall2_length _ _ _ Himgs).
Qed.

End Gif.

(** ** The mixer: channel coercion and mixing *)

Section Mixing.

Import AudioRecordThread.

Lemma lookup_map {A B} (f : A -> B) (l : list A) (i : nat) :
  map f l !! i = f <$> (l !! i).
Proof. exact (list_lookup_fmap f l i). Qed.

Lemma ensure_stereo_len a : np_len (ensure_stereo a) = np_len a.
Proof.
destruct a as [xs|c rws]; cbn; [by rewrite length_map|].
destruct (Nat.eqb c 1); cbn; [by rewrite length_map|done].
Qed.

(** A one-dimensional source becomes two identical channels. *)
Lemma ensure_stereo_flat xs i x :
  xs !! i = Some x ->
  exists rws, ensure_stereo (arr1 xs) = arr2 2 rws /\ rws !! i = Some [x; x].
Proof.
intros H. eexists. split; [reflexivity|].
rewrite lookup_map, H. reflexivity.
Qed.

(** A one-column source becomes two identical channels. *)
Lemma ensure_stereo_mono rws i x :
  rws !! i = Some [x] ->
  exists rws', ensure_stereo (arr2 1 rws) = arr2 2 rws' /\ rws' !! i = Some [x; x].
Proof.
intros H. eexists. split; [reflexivity|].
rewrite lookup_map, H. reflexivity.
Qed.

(** A two-column source is left as it is. *)
Lemma ensure_stereo_stereo rws : ensure_stereo (arr2 2 rws) = arr2 2 rws.
Proof. reflexivity. Qed.

(** So is any source with three columns or more. *)
Lemma ensure_stereo_wide n rws :
  ensure_stereo (arr2 (3 + n) rws) = arr2 (3 + n) rws.
Proof. reflexivity. Qed.

Lemma map_zip_with2 (ra rb : list (list f32)) :
  map (map (fun s => f32_div s two)) (zip_with (zip_with f32_add) ra rb)
  = zip_with (zip_with mean2) ra rb.
Proof.
revert rb. induction ra as [|r ra IH]; intros [|r' rb]; try reflexivity.
cbn [zip_with map]. f_equal; [|apply IH].
clear. revert r'. induction r as [|x r IH]; intros [|y r']; try reflexivity.
cbn [zip_with map]. f_equal. apply IH.
Qed.

(** The mean of two arrays of two columns, cut to a common length. *)
Lemma np_mean_two_stereo ra rb :
  let n := Nat.min (length ra) (length rb) in
  np_mean_axis0 (np_take n (arr2 2 ra)) [np_take n (arr2 2 rb)]
  = Ok (arr2 2 (zip_with (zip_with mean2) ra rb))
  /\ length (zip_with (zip_with mean2) ra rb) = n.
Proof.
intros n. split; [|apply length_zip_with].
unfold np_mean_axis0. cbn [np_take forallb same_shape].
rewrite !length_take.
assert ((Nat.min n (length ra) =? Nat.min n (length rb))%nat = true) as Hlen
  by (apply Nat.eqb_eq; lia).
cbn [Nat.eqb andb fold_left np_add np_map length].
rewrite Hlen. cbn [andb].
change (f32_of_Z (Z.of_nat 2)) with two.
rewrite <- zip_with_take. rewrite take_ge by (rewrite length_zip_with; lia).
by rewrite map_zip_with2.
Qed.

Lemma add_source_ok what data parts a w :
  np_concatenate data = Ok a ->
  add_source what data parts w
  = (Ok (parts ++ [ensure_stereo a]), World (fs w) (out w ++ [printed what])).
Proof.
intros H. rewrite add_source_eq. destruct data as [|c rest]; [discriminate|].
by rewrite H.
Qed.

(** Both sources delivered chunks and both end up with two columns: the
    file holds the sample-wise means over the common length. *)
Lemma save_two_sources rate sys mic a b ra rb filepath w :
  np_concatenate sys = Ok a ->
  np_concatenate mic = Ok b ->
  ensure_stereo a = arr2 2 ra ->
  ensure_stereo b = arr2 2 rb ->
  let mixed := zip_with (zip_with mean2) ra rb in
  save_to_file (Build rate sys mic) None filepath w
  = (Ok (Some filepath),
     World (<[filepath := WavFile rate (arr2 2 mixed)]> (fs w))
           (out w ++ [printed "System audio"; printed "Mic audio"]))
  /\ length mixed = Nat.min (np_len a) (np_len b).
Proof.
intros Ha Hb Hsa Hsb mixed.
assert (length mixed = Nat.min (length ra) (length rb)) as Hlen
  by apply length_zip_with.
split.
- unfold save_to_file, try_except. cbn [system_audio_data mic_audio_data sample_rate].
  erewrite bind_ok by (apply add_source_ok; exact Ha).
  erewrite bind_ok by (apply add_source_ok; exact Hb).
  cbn [app]. rewrite Hsa, Hsb.
  unfold min_len. cbn [fold_left np_len map].
  destruct (np_mean_two_stereo ra rb) as [Hmean _].
  unfold bind at 1, lift at 1. cbv zeta in Hmean. rewrite Hmean.
  unfold sf_write, bind, write_file, ret. cbn [fs out].
  by rewrite <- app_assoc.
- rewrite Hlen. rewrite <- (ensure_stereo_len a), <- (ensure_stereo_len b).
  by rewrite Hsa, Hsb.
Qed.

(** Only one source delivered chunks: the file holds that source whole. *)
Lemma save_system_only rate sys a filepath w :
  np_concatenate sys = Ok a ->
  save_to_file (Build rate sys []) None filepath w
  = (Ok (Some filepath),
     World (<[filepath := WavFile rate (ensure_stereo a)]> (fs w))
           (out w ++ [printed "System audio"])).
Proof.
intros Ha. unfold save_to_file, try_except.
cbn [system_audio_data mic_audio_data sample_rate].
erewrite bind_ok by (apply add_source_ok; exact Ha).
reflexivity.
Qed.

Lemma save_mic_only rate mic b filepath w :
  np_concatenate mic = Ok b ->
  save_to_file (Build rate [] mic) None filepath w
  = (Ok (Some filepath),
     World (<[filepath := WavFile rate (ensure_stereo b)]> (fs w))
           (out w ++ [printed "Mic audio"])).
Proof.
intros Hb. unfold save_to_file, try_except.
cbn [system_audio_data mic_audio_data sample_rate].
erewrite bind_ok by reflexivity.
erewrite bind_ok by (apply add_source_ok; exact Hb).
reflexivity.
Qed.

(** Both sources delivered chunks but end up with different numbers of
    columns: the mean raises, the error is printed, nothing is written. *)
Lemma save_mismatched rate sys mic a b c c' ra rb failure filepath w :
  np_concatenate sys = Ok a ->
  np_concatenate mic = Ok b ->
  ensure_stereo a = arr2 c ra ->
  ensure_stereo b = arr2 c' rb ->
  c <> c' ->
  exists msg,
    save_to_file (Build rate sys mic) failure filepath w
    = (Ok None,
       World (fs w)
             (out w ++ [printed "System audio"; printed "Mic audio";
                        printed_exn "Save audio error" (ValueError msg)])).
Proof.
intros Ha Hb Hsa Hsb Hne.
unfold save_to_file, try_except. cbn [system_audio_data mic_audio_data sample_rate].
erewrite bind_ok by (apply add_source_ok; exact Ha).
erewrite bind_ok by (apply add_source_ok; exact Hb).
cbn [app]. rewrite Hsa, Hsb.
unfold bind at 1, lift at 1, np_mean_axis0.
cbn [map np_take forallb same_shape].
apply Nat.eqb_neq in Hne. rewrite Hne. cbn [andb].
eexists. unfold bind, emit, ret. cbn [fs out].
by rewrite <- !app_assoc.
Qed.

End Mixing.

(** ** Export: outcomes of whole jobs *)

Section ExportJobs.

Import ExportThread.

(** Whatever code the multiplexer exits with, the job reports success and
    the file system is the one left by the multiplexer and the clean-up. *)
Lemma run_mux_exited self e w f0 rest a rc output :
  frames self = f0 :: rest ->
  fmt self <> "gif" ->
  audio_file self = Some a ->
  a <> "" ->
  is_Some (fs w !! a) ->
  ffmpeg e = exited rc output ->
  exists evs,
    run self e w
    = (Ok tt,
       World (after_mux self e a (cols f0) (rows f0) output (fs w))
             (out w ++ evs ++ [export_finished true (path self)])).
Proof.
intros Hfr Hfmt Ha Hne Hex Hff.
destruct (export_with_audio_exited self e a (cols f0) (rows f0)
            (Z.of_nat (length (frames self))) rc output w Hff) as [evs Hbody].
exists evs.
rewrite (run_with_audio self e w f0 rest a _ Hfr Hfmt Ha Hne Hex Hbody).
cbn [fs out]. by rewrite <- app_assoc.
Qed.

(** What the output path holds after the clean-up. *)
Lemma after_mux_path self e a w h output m :
  path self <> temp_video e ->
  path self <> a ->
  after_mux self e a w h output m !! path self
  = match output with
    | Some f => Some f
    | None => m !! path self
    end.
Proof.
intros H1 H2. unfold after_mux.
rewrite !lookup_delete_ne by done.
destruct output as [f|].
- apply lookup_insert_eq.
- by rewrite lookup_insert_ne.
Qed.

(** When the multiplexer cannot be launched the job still succeeds and the
    intermediate video is copied to the output path; the intermediate file
    itself stays. *)
Lemma run_mux_launch_fails self e w f0 rest a ex :
  frames self = f0 :: rest ->
  fmt self <> "gif" ->
  audio_file self = Some a ->
  a <> "" ->
  is_Some (fs w !! a) ->
  ffmpeg e = launch_raises ex ->
  temp_video e <> path self ->
  let video := VideoFile "mp4v" (fps self) (cols f0, rows f0) (frames self) in
  exists evs,
    run self e w
    = (Ok tt,
       World (<[path self := video]> (<[temp_video e := video]> (fs w)))
             (out w ++ evs ++ [export_finished true (path self)])).
Proof.
intros Hfr Hfmt Ha Hne Hex Hff Htmp video.
destruct (export_with_audio_launch_fails self e a (cols f0) (rows f0)
            (Z.of_nat (length (frames self))) ex w Hff Htmp) as [evs Hbody].
exists evs.
rewrite (run_with_audio self e w f0 rest a _ Hfr Hfmt Ha Hne Hex Hbody).
cbn [fs out]. by rewrite <- app_assoc.
Qed.

(** An audio path that names no file changes nothing in an export job. *)
Lemma run_missing_audio self e w a :
  audio_file self = Some a ->
  fs w !! a = None ->
  run self e w = run (without_audio self) e w.
Proof.
intros Ha Hnone. destruct self as [fr p r fm g au]. cbn in Ha. subst au.
unfold run, without_audio.
cbn [frames path fps fmt gif_fps audio_file].
unfold try_except.
destruct (Z.of_nat (length fr) =? 0); [reflexivity|].
destruct (String.eqb fm "gif"); [reflexivity|].
destruct fr as [|f0 rest]; [reflexivity|].
unfold bind.
assert ((if truthy (Some a) then path_exists a else ret false) w = (Ok false, w)) as ->.
{ destruct (truthy (Some a)); [|reflexivity].
  unfold path_exists. rewrite bool_decide_eq_false_2; [done|].
  intros [? ?]; congruence. }
reflexivity.
Qed.

End ExportJobs.

(** ** A sub-run recorded with audio *)

(** Stopping a sub-run started with audio stores the temporary audio path
    in the session, whether or not the mixer wrote the file. *)
Lemma stop_after_audio_start (self : ScreenRecorder.t) rate finish env w :
  exists s w',
    ScreenRecorder.stop_recording
      (ScreenRecorder.start_recording true self rate true) finish env w = (Ok s, w')
    /\ ScreenRecorder.audio_file s = Some (audio_tmp env)
    /\ (system_chunks env = [] /\ mic_chunks env = [] -> fs w' = fs w)
    /\ (sf_failure env <> None -> fs w' = fs w).
Proof.
set (th0 := RecordThread.start (RecordThread.init true (rate_value rate) true)).
unfold ScreenRecorder.stop_recording.
change (ScreenRecorder.record_thread
          (ScreenRecorder.start_recording true self rate true)) with (Some th0).
cbv beta iota. change (RecordThread.is_recording th0) with true. cbv iota.
unfold bind.
destruct (run_total th0 env w) as (th & w' & Hrun & _ & _ & _ & Haf & Hfs).
{ cbn. apply rate_value_nonzero. }
rewrite Hrun. eexists _, _. split; [reflexivity|].
cbn [ScreenRecorder.audio_file RecordThread.get_audio_file].
split; [exact Haf|].
destruct Hfs as [Hfs|(r & mixed & _ & Hnone & Hfs & Hdata)].
- by split.
- split.
  + intros [Hs Hm]. destruct (Hdata eq_refl); congruence.
  + congruence.
Qed.

(** ** Checks on concrete inputs *)

Example mean2_of_1_and_3 : mean2 (sample 1) (sample 3) = sample 2.
Proof. vm_compute. reflexivity. Qed.

Example ensure_stereo_mono_chunk :
  AudioRecordThread.ensure_stereo mono_chunk = arr2 2 [[sample 5; sample 5]].
Proof. reflexivity. Qed.

Example slice_every_third :
  slice_step 3 [0; 1; 2; 3; 4; 5; 6]%nat = [0; 3; 6]%nat.
Proof. reflexivity. Qed.

(** [f64_round] against the binary64 operations of the library's
    [SpecFloat]: the quotient 1000 / w and the product h * (1000 / w) for
    some screen sizes. *)
Example f64_round_agrees_with_SFdiv :
  forallb (fun w => Qeq_bool (f64_round (1000 # Z.to_pos w))
                             (SF2Q (SFdiv 53 1024 (Z2SF 1000) (Z2SF w))))
          [1001; 1024; 1216; 1280; 1360; 1366; 1440; 1600; 1920; 2560; 3440; 3840]
  = true.
Proof. vm_compute. reflexivity. Qed.

Example f64_round_agrees_with_SFmul :
  forallb (fun '(w, h) =>
             Qeq_bool (f64_round (inject_Z h * f64_round (1000 # Z.to_pos w)))
                      (SF2Q (SFmul 53 1024 (Z2SF h)
                               (SFdiv 53 1024 (Z2SF 1000) (Z2SF w)))))
          [(1216, 1140); (1360, 85); (1920, 1080); (2560, 1440); (2560, 1);
           (3840, 2160); (1366, 768)]
  = true.
Proof. vm_compute. reflexivity. Qed.

Example gif_frame_full_hd :
  ExportThread.gif_frame (hd_frame 0) = Ok (Frame 562 1000 RGB 0).
Proof. vm_compute. reflexivity. Qed.

Example gif_frame_small_frame :
  ExportThread.gif_frame (small_frame 0) = Ok (Frame 480 640 RGB 0).
Proof. reflexivity. Qed.

(** Two sizes whose exact scaled height is a half-integer: 937.5 and 62.5.
    The double products fall just below and just above. *)
Example gif_frame_1216_by_1140 :
  ExportThread.gif_frame (Frame 1140 1216 BGR 0) = Ok (Frame 937 1000 RGB 0).
Proof. vm_compute. reflexivity. Qed.

Example gif_frame_1360_by_85 :
  ExportThread.gif_frame (Frame 85 1360 BGR 0) = Ok (Frame 63 1000 RGB 0).
Proof. vm_compute. reflexivity. Qed.

Example gif_frame_strip :
  ExportThread.gif_frame (strip_frame 0) = Raise (CvError "!dsize.empty()").
Proof. vm_compute. reflexivity. Qed.

Example run_gif_strip :
  ExportThread.run strip_job mux_fails mux_world
  = (Ok tt,
     World (fs mux_world)
           [progress_updated 1 2 100; export_finished false "!dsize.empty()"]).
Proof. vm_compute. reflexivity. Qed.

Example capture_with_two_failures :
  captured [grabbed (Frame 480 640 BGRA 0); grab_raises (OSError "grab");
            grabbed (Frame 480 640 BGRA 2); convert_raises (CvError "cvt")]
  = [small_frame 0; small_frame 2].
Proof. reflexivity. Qed.

(** * The claims *)

(** C1 (the code departs from it).  On the job [mux_job], whose audio file
    exists, with a multiplexer that exits with code 1 and leaves no output,
    the job reports success although nothing is at the output path: the
    temporary video was removed before the fallback copy could read it. *)
Theorem C1_mux_failure_loses_the_video :
  ExportThread.run mux_job mux_fails mux_world
  = (Ok tt,
     World ∅
       [progress_updated 1 2 80; progress_updated 2 2 80; progress_literal 100;
        printed_exn "FFmpeg merge error" (FileNotFoundError "temp_video_1.mp4");
        export_finished true "Rec_1.mp4"]).
Proof. vm_compute. reflexivity. Qed.

(** C2.  An export job whose frame sequence is empty fails at once with the
    "no frames recorded" message: its only effect is the failure signal, and
    the file system is exactly what it was (no output file, no temporary
    video, no container writer). *)
Theorem C2_empty_export_fails_before_io :
  forall (self : ExportThread.t) (e : ExportThread.env) (w : world),
    ExportThread.frames self = [] ->
    ExportThread.run self e w
    = (Ok tt,
       World (fs w)
             (out w ++ [export_finished false ExportThread.no_frames_msg])).
Proof.
intros self e w H. unfold ExportThread.run, try_except. rewrite H. reflexivity.
Qed.

Lemma C2_witness :
  ExportThread.frames
    (ExportThread.Build [] "Rec_1.mp4" 30 "mp4" 10 None) = []
  /\ ExportThread.run (ExportThread.Build [] "Rec_1.mp4" 30 "mp4" 10 None)
       mux_fails mux_world
     = (Ok tt,
        World (fs mux_world)
              (out mux_world ++ [export_finished false ExportThread.no_frames_msg])).
Proof.
split; [reflexivity|].
apply (C2_empty_export_fails_before_io
         (ExportThread.Build [] "Rec_1.mp4" 30 "mp4" 10 None) mux_fails mux_world).
reflexivity.
Defined.

(** C3 (the code departs from it).  With a six-channel loopback source and
    a stereo microphone source both delivering data, the mean over the two
    differently shaped arrays raises; the error is printed and no artifact
    is produced, instead of a mixed stream of min(N1, N2) samples. *)
Theorem C3_wide_source_mix_yields_nothing :
  forall (rate : Z) (failure : option exn) (filepath : string) (w : world),
    exists msg,
      AudioRecordThread.save_to_file
        (AudioRecordThread.Build rate [surround_chunk] [stereo_chunk])
        failure filepath w
      = (Ok None,
         World (fs w)
               (out w ++ [printed "System audio"; printed "Mic audio";
                          printed_exn "Save audio error" (ValueError msg)])).
Proof.
intros rate failure filepath w.
eapply (save_mismatched rate [surround_chunk] [stereo_chunk]
          surround_chunk stereo_chunk 6 2); try reflexivity.
discriminate.
Qed.

(** C4 (the code departs from it).  [ensure_stereo] returns a source with
    three channels or more as it is; a six-channel loopback source alone is
    therefore written out as a six-channel buffer. *)
Theorem C4_wide_source_is_not_coerced :
  (forall (n : nat) (rws : list (list f32)),
     AudioRecordThread.ensure_stereo (arr2 (3 + n) rws) = arr2 (3 + n) rws)
  /\ np_channels (AudioRecordThread.ensure_stereo surround_chunk) = Some 6%nat
  /\ AudioRecordThread.save_to_file
       (AudioRecordThread.Build 44100 [surround_chunk] []) None
       "screen_rec_audio_1.wav" (World ∅ [])
     = (Ok (Some "screen_rec_audio_1.wav"),
        World (<["screen_rec_audio_1.wav" := WavFile 44100 surround_chunk]> ∅)
              [printed "System audio"]).
Proof.
split; [intros; reflexivity|]. split; [reflexivity|].
apply (save_system_only 44100 [surround_chunk] surround_chunk).
reflexivity.
Qed.

(** C5.  An animated-image export with capture rate fps and target rate
    gif_fps selects every step-th frame, in order, where
    step = max(1, floor(fps / gif_fps)): position i of the selection is
    frame i * step, for exactly the positions with i * step below the number
    of frames.  The selected frames are prepared one after the other.  When
    each of them can be prepared the job writes their images, in that
    order, at the target rate; frames that are [gif_preparable] can all be
    prepared.  When one of them cannot, the job writes nothing and reports
    the exception of the first such frame.  For fps = 30 the step is 3 at
    gif_fps = 10 and 1 at gif_fps = 30 and at gif_fps = 40, and a step of 1
    selects every frame. *)
Theorem C5_gif_selects_every_step_th_frame :
  (forall (self : ExportThread.t) (e : ExportThread.env) (w : world) f0 rest,
     ExportThread.frames self = f0 :: rest ->
     ExportThread.fmt self = "gif" ->
     ExportThread.gif_fps self <> 0 ->
     let step := Z.max 1 (ExportThread.fps self / ExportThread.gif_fps self) in
     let selected := slice_step step (ExportThread.frames self) in
     ExportThread.gif_step (ExportThread.fps self) (ExportThread.gif_fps self) = Ok step
     /\ (forall i : nat,
           selected !! i = ExportThread.frames self !! (i * Z.to_nat step)%nat)
     /\ (forall i : nat,
           (i < length selected)%nat
           <-> (i * Z.to_nat step < length (ExportThread.frames self))%nat)
     /\ (forall imgs,
           Forall2 (fun f g => ExportThread.gif_frame f = Ok g) selected imgs ->
           exists evs,
             ExportThread.run self e w
             = (Ok tt,
                World (<[ExportThread.path self :=
                           GifFile (ExportThread.gif_fps self) imgs]> (fs w))
                      (out w ++ evs ++ [export_finished true (ExportThread.path self)])))
     /\ (Forall (fun f => gif_preparable f = true) (ExportThread.frames self) ->
         exists imgs,
           Forall2 (fun f g => ExportThread.gif_frame f = Ok g) selected imgs)
     /\ (forall done fr ex rest',
           selected = done ++ fr :: rest' ->
           Forall (fun f => exists g, ExportThread.gif_frame f = Ok g) done ->
           ExportThread.gif_frame fr = Raise ex ->
           exists evs,
             ExportThread.run self e w
             = (Ok tt,
                World (fs w)
                      (out w ++ evs ++ [export_finished false (exn_str ex)]))))
  /\ ExportThread.gif_step 30 10 = Ok 3
  /\ ExportThread.gif_step 30 30 = Ok 1
  /\ ExportThread.gif_step 30 40 = Ok 1
  /\ (forall lst : list frame, slice_step 1 lst = lst).
Proof.
split; [|repeat split; try reflexivity; apply slice_step_one].
intros self e w f0 rest Hfr Hfmt Hgif step selected.
assert (1 <= step) as Hstep by (unfold step; lia).
pose proof (gif_step_value (ExportThread.fps self) _ Hgif) as Hgs.
split; [exact Hgs|]. split; [|split; [|split; [|split]]].
- intros i. apply slice_step_lookup. exact Hstep.
- intros i. apply slice_step_length. exact Hstep.
- intros imgs Himgs. exact (run_gif self e w f0 rest step imgs Hfr Hfmt Hgs Himgs).
- intros Hall. apply gif_frames_exist. by apply slice_from_Forall.
- intros done fr ex rest' Hsel Hdone Hex.
  exact (run_gif_raise self e w f0 rest step done fr ex rest'
           Hfr Hfmt Hgs Hsel Hdone Hex).
Qed.

Lemma C5_witness :
  exists evs,
    ExportThread.run (gif_job 30 10) mux_fails mux_world
    = (Ok tt,
       World (<["Rec_1.gif" :=
                  GifFile 10 [Frame 562 1000 RGB 0; Frame 562 1000 RGB 3;
                              Frame 562 1000 RGB 6]]> (fs mux_world))
             (out mux_world ++ evs ++ [export_finished true "Rec_1.gif"])).
Proof.
destruct (proj1 C5_gif_selects_every_step_th_frame (gif_job 30 10) mux_fails
            mux_world (hd_frame 0) (map hd_frame (seq 1 6)))
  as (_ & _ & _ & Hrun & _); [reflexivity|reflexivity|discriminate|].
apply Hrun. repeat constructor.
Defined.

(** C6.  Reselection keeps the frames already captured: a session that
    records a sub-run, reselects, and records a second sub-run holds what it
    held before, then the first sub-run's frames, then the second's.  A
    fresh session therefore ends with exactly k + m frames when the sub-runs
    captured k and m. *)
Theorem C6_reselect_preserves_frames :
  forall (AUDIO_AVAILABLE : bool) (rate1 rate2 : capture_rate) (a1 a2 : bool)
         (env1 env2 : subrun) (w : world),
    (forall self : ScreenRecorder.t,
       exists s w',
         ScreenRecorder.steps AUDIO_AVAILABLE self
           [ScreenRecorder.Start rate1 a1; ScreenRecorder.Reselect env1;
            ScreenRecorder.Start rate2 a2; ScreenRecorder.Stop env2] w = (Ok s, w')
         /\ ScreenRecorder.frames s
            = ScreenRecorder.frames self
              ++ captured (ticks env1) ++ captured (ticks env2))
    /\ exists s w',
         ScreenRecorder.steps AUDIO_AVAILABLE ScreenRecorder.init
           [ScreenRecorder.Start rate1 a1; ScreenRecorder.Reselect env1;
            ScreenRecorder.Start rate2 a2; ScreenRecorder.Stop env2] w = (Ok s, w')
         /\ ScreenRecorder.frames s = captured (ticks env1) ++ captured (ticks env2)
         /\ length (ScreenRecorder.frames s)
            = (length (captured (ticks env1)) + length (captured (ticks env2)))%nat.
Proof.
intros AA rate1 rate2 a1 a2 env1 env2 w.
assert (forall self : ScreenRecorder.t,
          exists s w',
            ScreenRecorder.steps AA self
              [ScreenRecorder.Start rate1 a1; ScreenRecorder.Reselect env1;
               ScreenRecorder.Start rate2 a2; ScreenRecorder.Stop env2] w = (Ok s, w')
            /\ ScreenRecorder.frames s
               = ScreenRecorder.frames self
                 ++ captured (ticks env1) ++ captured (ticks env2)) as Hgen.
{ intros self. cbn [ScreenRecorder.steps ScreenRecorder.step]. unfold bind.
  unfold ret at 1. unfold ScreenRecorder.reselect_region.
  destruct (start_then_stop AA self rate1 a1 false env1 w)
    as (s1 & w1 & -> & Hfr1 & _).
  unfold ret at 1.
  destruct (start_then_stop AA s1 rate2 a2 true env2 w1)
    as (s2 & w2 & -> & Hfr2 & _).
  exists s2, w2. unfold ret. rewrite Hfr2, Hfr1.
  split; [reflexivity|]. by rewrite <- app_assoc. }
split; [exact Hgen|].
destruct (Hgen ScreenRecorder.init) as (s & w' & Heq & Hfr).
exists s, w'. cbn [ScreenRecorder.frames ScreenRecorder.init app] in Hfr.
split; [exact Heq|]. split; [exact Hfr|]. rewrite Hfr. apply length_app.
Qed.

(** C7.  A tick of the capture loop on which the grab or the conversion
    raises is swallowed: the iteration returns normally having only printed
    the error, the frame list and the running count are exactly what they
    were, and the loop goes on with the remaining ticks, which it completes
    without ever raising.  The thread of a sub-run therefore always returns
    from [run], holding the frames of its successful ticks in order. *)
Theorem C7_capture_tick_failure_is_swallowed :
  forall (e : exn) (rest : list tick) (fr : list frame) (count : Z) (w : world),
    let logged := World (fs w) (out w ++ [printed_exn "Record error" e]) in
    RecordThread.loop_body (grab_raises e) (fr, count) w = (Ok (fr, count), logged)
    /\ RecordThread.loop_body (convert_raises e) (fr, count) w = (Ok (fr, count), logged)
    /\ RecordThread.loop (grab_raises e :: rest) (fr, count) w
       = RecordThread.loop rest (fr, count) logged
    /\ RecordThread.loop (convert_raises e :: rest) (fr, count) w
       = RecordThread.loop rest (fr, count) logged
    /\ (exists evs,
          RecordThread.loop rest (fr, count) logged
          = (Ok (fr ++ captured rest, count + Z.of_nat (length (captured rest))),
             World (fs w) (out logged ++ evs)))
    /\ forall (AUDIO_AVAILABLE : bool) (rate : capture_rate) (audio : bool)
              (env : subrun),
         exists th w',
           RecordThread.run
             (RecordThread.start
                (RecordThread.init AUDIO_AVAILABLE (rate_value rate) audio)) env w
           = (Ok th, w')
           /\ RecordThread.frames th = captured (ticks env).
Proof.
intros e rest fr count w logged.
split; [reflexivity|]. split; [reflexivity|].
split; [reflexivity|]. split; [reflexivity|]. split.
- destruct (loop_total rest fr count logged) as [evs Hevs].
  exists evs. exact Hevs.
- intros AA rate audio env.
  destruct (run_total (RecordThread.start
                         (RecordThread.init AA (rate_value rate) audio)) env w)
    as (th & w' & Hrun & Hfr & _); [apply rate_value_nonzero|].
  by exists th, w'.
Qed.




(** C9.  No session operation ever clears a non-empty frame list: along any
    sequence of operations the frames held earlier are a prefix of those
    held later.  Starting a recording resets the frame list, the elapsed
    time and the audio path only when the frame list is empty, and leaves
    all three alone otherwise; so a second recording started after a
    completed one ends with the first recording's frames followed by its
    own. *)
Theorem C9_frames_never_cleared :
  forall (AUDIO_AVAILABLE : bool),
    (forall (ops1 ops2 : list ScreenRecorder.op) (w : world),
       exists s1 w1 s2 w2,
         ScreenRecorder.steps AUDIO_AVAILABLE ScreenRecorder.init ops1 w = (Ok s1, w1)
         /\ ScreenRecorder.steps AUDIO_AVAILABLE ScreenRecorder.init (ops1 ++ ops2) w
            = (Ok s2, w2)
         /\ ScreenRecorder.frames s1 `prefix_of` ScreenRecorder.frames s2)
    /\ (forall (self : ScreenRecorder.t) rate check_audio,
          ScreenRecorder.frames self <> [] ->
          let s := ScreenRecorder.start_recording AUDIO_AVAILABLE self rate check_audio in
          ScreenRecorder.frames s = ScreenRecorder.frames self
          /\ ScreenRecorder.record_time s = ScreenRecorder.record_time self
          /\ ScreenRecorder.audio_file s = ScreenRecorder.audio_file self)
    /\ (forall (self : ScreenRecorder.t) rate check_audio,
          ScreenRecorder.frames self = [] ->
          let s := ScreenRecorder.start_recording AUDIO_AVAILABLE self rate check_audio in
          ScreenRecorder.frames s = []
          /\ ScreenRecorder.record_time s = 0
          /\ ScreenRecorder.audio_file s = None)
    /\ (forall rate1 rate2 a1 a2 (env1 env2 : subrun) (w : world),
          exists s w',
            ScreenRecorder.steps AUDIO_AVAILABLE ScreenRecorder.init
              [ScreenRecorder.Start rate1 a1; ScreenRecorder.Stop env1;
               ScreenRecorder.Start rate2 a2; ScreenRecorder.Stop env2] w = (Ok s, w')
            /\ ScreenRecorder.frames s
               = captured (ticks env1) ++ captured (ticks env2)).
Proof.
  intros AA. repeat split.
  - intros ops1 ops2 w.
    destruct (steps_prefix AA ops1 ScreenRecorder.init w (thread_ok_init))
      as (s1 & w1 & H1 & _ & Hok1).
    destruct (steps_prefix AA ops2 s1 w1 Hok1) as (s2 & w2 & H2 & Hp & _).
    exists s1, w1, s2, w2. split; [exact H1|]. split; [|exact Hp].
    rewrite steps_app, H1. exact H2.
  - unfold ScreenRecorder.start_recording.
    destruct (ScreenRecorder.frames self) eqn:E; [done|]. cbn. congruence.
  - unfold ScreenRecorder.start_recording.
    destruct (ScreenRecorder.frames self) eqn:E; [done|]. done.
  - unfold ScreenRecorder.start_recording.
    destruct (ScreenRecorder.frames self) eqn:E; [done|]. done.
  - unfold ScreenRecorder.start_recording. by rewrite H.
  - unfold ScreenRecorder.start_recording. by rewrite H.
  - unfold ScreenRecorder.start_recording. by rewrite H.
  - intros. cbn [ScreenRecorder.steps ScreenRecorder.step]. unfold bind.
    unfold ret at 1.
    destruct (start_then_stop AA ScreenRecorder.init rate1 a1 true env1 w)
      as (s1 & w1 & -> & Hfr1 & _).
    unfold ret at 1.
    destruct (start_then_stop AA s1 rate2 a2 true env2 w1)
      as (s2 & w2 & -> & Hfr2 & _).
    exists s2, w2. unfold ret. by rewrite Hfr2, Hfr1.
Qed.

Lemma C9_witness :
  ScreenRecorder.frames finished_session <> []
  /\ ScreenRecorder.frames
       (ScreenRecorder.start_recording true finished_session FPS30 true)
     = [hd_frame 0]
  /\ ScreenRecorder.record_time
       (ScreenRecorder.start_recording true finished_session FPS30 true) = 7
  /\ ScreenRecorder.audio_file
       (ScreenRecorder.start_recording true finished_session FPS30 true)
     = Some "screen_rec_audio_1.wav".
Proof.
split; [discriminate|].
apply (proj1 (proj2 (C9_frames_never_cleared true)) finished_session FPS30 true).
discriminate.
Defined.

(** C10.  Stopping a sub-run that was started with audio leaves the
    temporary audio path in the session even when the mixer wrote nothing
    (no source delivered data, or writing the file failed), in which cases
    the file system is unchanged, so the path may name no file.  An export
    job whose audio path names no file behaves exactly as the same job
    without an audio path: for a raster format it writes the frames straight
    to the output path and reports success. *)
Theorem C10_missing_audio_file_counts_as_no_audio :
  (forall (self : ScreenRecorder.t) (rate : capture_rate) (finish : bool)
          (env : subrun) (w : world),
     exists s w',
       ScreenRecorder.stop_recording
         (ScreenRecorder.start_recording true self rate true) finish env w = (Ok s, w')
       /\ ScreenRecorder.audio_file s = Some (audio_tmp env)
       /\ (system_chunks env = [] /\ mic_chunks env = [] -> fs w' = fs w)
       /\ (sf_failure env <> None -> fs w' = fs w))
  /\ (forall (self : ExportThread.t) (e : ExportThread.env) (w : world) (a : string),
        ExportThread.audio_file self = Some a ->
        fs w !! a = None ->
        ExportThread.run self e w = ExportThread.run (without_audio self) e w)
  /\ (forall (self : ExportThread.t) (e : ExportThread.env) (w : world) (a : string)
             f0 rest,
        ExportThread.frames self = f0 :: rest ->
        ExportThread.fmt self <> "gif" ->
        ExportThread.audio_file self = Some a ->
        fs w !! a = None ->
        exists evs,
          ExportThread.run self e w
          = (Ok tt,
             World (<[ExportThread.path self :=
                        VideoFile (ExportThread.fourcc_map (ExportThread.fmt self))
                                  (ExportThread.fps self) (cols f0, rows f0)
                                  (ExportThread.frames self)]> (fs w))
                   (out w ++ evs ++ [export_finished true (ExportThread.path self)]))).
Proof.
split; [|split].
- intros. apply stop_after_audio_start.
- intros self e w a Ha Hnone. by apply run_missing_audio with a.
- intros self e w a f0 rest Hfr Hfmt Ha Hnone.
  apply (run_video_only self e w f0 rest Hfr Hfmt).
  rewrite Ha. by right.
Qed.

Lemma C10_witness :
  ExportThread.run mux_job mux_fails (World ∅ [])
  = ExportThread.run (without_audio mux_job) mux_fails (World ∅ []).
Proof.
apply (proj1 (proj2 C10_missing_audio_file_counts_as_no_audio)
         mux_job mux_fails (World ∅ []) "screen_rec_audio_1.wav").
- reflexivity.
- reflexivity.
Defined.

(** * Further properties of the pipeline *)

(** ** Quiet computations *)

Create HintDb quiet.

Lemma quiet_ret {A} (a : A) : quiet (ret a).
Proof. intros w. exists []. cbn. by rewrite app_nil_r. Qed.

Lemma quiet_raise {A} (e : exn) : quiet (@raise A e).
Proof. intros w. exists []. cbn. by rewrite app_nil_r. Qed.

Lemma quiet_lift {A} (r : result A) : quiet (lift r).
Proof. intros w. exists []. cbn. by rewrite app_nil_r. Qed.

Lemma quiet_emit ev : is_finished ev = false -> quiet (emit ev).
Proof. intros H w. exists [ev]. cbn. split; [done|]. by constructor. Qed.

Lemma quiet_path_exists p : quiet (path_exists p).
Proof. intros w. exists []. cbn. by rewrite app_nil_r. Qed.

Lemma quiet_write_file p f : quiet (write_file p f).
Proof. intros w. exists []. cbn. by rewrite app_nil_r. Qed.

Lemma quiet_os_remove p : quiet (os_remove p).
Proof.
intros w. exists []. unfold os_remove. rewrite app_nil_r.
by destruct (fs w !! p).
Qed.

Lemma quiet_shutil_copy src dst : quiet (shutil_copy src dst).
Proof.
intros w. exists []. unfold shutil_copy. rewrite app_nil_r.
destruct (fs w !! src); [|done]. by destruct (decide (src = dst)).
Qed.

Lemma quiet_bind {A B} (m : M A) (k : A -> M B) :
  quiet m -> (forall a, quiet (k a)) -> quiet (bind m k).
Proof.
intros Hm Hk w. unfold bind.
destruct (Hm w) as (evs1 & H1 & F1).
destruct (m w) as [[a|e] w1]; cbn [snd] in *.
- destruct (Hk a w1) as (evs2 & H2 & F2).
  exists (evs1 ++ evs2). split.
  + by rewrite H2, H1, app_assoc.
  + by apply Forall_app.
- by exists evs1.
Qed.

Lemma quiet_try_except {A} (m : M A) (h : exn -> M A) :
  quiet m -> (forall e, quiet (h e)) -> quiet (try_except m h).
Proof.
intros Hm Hh w. unfold try_except.
destruct (Hm w) as (evs1 & H1 & F1).
destruct (m w) as [[a|e] w1]; cbn [snd] in *.
- by exists evs1.
- destruct (Hh e w1) as (evs2 & H2 & F2).
  exists (evs1 ++ evs2). split.
  + by rewrite H2, H1, app_assoc.
  + by apply Forall_app.
Qed.

Lemma quiet_if {A} (b : bool) (m1 m2 : M A) :
  quiet m1 -> quiet m2 -> quiet (if b then m1 else m2).
Proof. by destruct b. Qed.

#[local] Hint Resolve quiet_ret quiet_raise quiet_lift quiet_path_exists
  quiet_write_file quiet_os_remove quiet_shutil_copy quiet_bind
  quiet_try_except quiet_if : quiet.
#[local] Hint Extern 1 (quiet (emit _)) => apply quiet_emit; reflexivity : quiet.

Lemma quiet_emit_progress n : forall i total scale,
  quiet (ExportThread.emit_progress i n total scale).
Proof.
induction n as [|n IH]; intros i total scale; cbn [ExportThread.emit_progress];
  auto with quiet.
Qed.

#[local] Hint Resolve quiet_emit_progress : quiet.

Lemma quiet_gif_loop selected : forall i count acc,
  quiet (ExportThread.gif_loop i selected count acc).
Proof.
induction selected as [|fr rest IH]; intros i count acc;
  cbn [ExportThread.gif_loop]; [auto with quiet|].
apply quiet_bind; [auto with quiet|]. intros rgb.
apply quiet_bind; [auto with quiet|]. intros _. apply IH.
Qed.

#[local] Hint Resolve quiet_gif_loop : quiet.

Lemma quiet_subprocess_run p output_path :
  quiet (ExportThread.subprocess_run p output_path).
Proof.
destruct p as [e|rc [f|]]; cbn [ExportThread.subprocess_run]; auto with quiet.
Qed.

#[local] Hint Resolve quiet_subprocess_run : quiet.

Lemma quiet_export_video_only self w h total :
  quiet (ExportThread._export_video_only self w h total).
Proof. unfold ExportThread._export_video_only. auto with quiet. Qed.

Lemma quiet_export_with_audio self e a w h total :
  quiet (ExportThread._export_with_audio self e a w h total).
Proof.
unfold ExportThread._export_with_audio.
apply quiet_bind; [auto with quiet|]. intros _.
apply quiet_bind; [auto with quiet|]. intros _.
apply quiet_try_except.
- apply quiet_bind; [auto with quiet|]. intros rc.
  apply quiet_bind; [auto with quiet|]. intros _.
  apply quiet_bind.
  { apply quiet_bind; [auto with quiet|]. intros b. auto with quiet. }
  intros _. apply quiet_bind.
  { apply quiet_bind; [auto with quiet|]. intros b. auto with quiet. }
  intros _. auto with quiet.
- intros ex. apply quiet_bind; [auto with quiet|]. intros _.
  apply quiet_bind; [auto with quiet|]. intros b. auto with quiet.
Qed.

(** ** Export jobs *)

(** X1.  Every export job whose multiplexer invocation, if there is one,
    ends (the process exits or cannot be started: the two cases of [proc])
    returns normally and appends to the log some events that are not
    terminal signals followed by exactly one [export_finished] signal, which
    is the last event of the job.  A multiplexer that never exits is not an
    environment of the model, and nothing is said of it. *)
Theorem X1_export_ends_with_one_terminal_signal :
  forall (self : ExportThread.t) (e : ExportThread.env) (w : world),
    exists w' evs ok msg,
      ExportThread.run self e w = (Ok tt, w')
      /\ out w' = out w ++ evs ++ [export_finished ok msg]
      /\ Forall (fun ev => is_finished ev = false) evs.
Proof.
intros self e w. unfold ExportThread.run, try_except.
destruct (Z.of_nat (length (ExportThread.frames self)) =? 0).
- eexists _, [], _, _. cbn. split; [reflexivity|]. by split.
- unfold bind at 1.
  match goal with |- context [match ?m w with _ => _ end] => set (inner := m) end.
  assert (quiet inner) as Hq.
  { subst inner. apply quiet_if.
    - apply quiet_bind; [auto with quiet|]. intros step.
      apply quiet_bind; [auto with quiet|]. intros frames_rgb.
      auto with quiet.
    - destruct (ExportThread.frames self) as [|f0 rest]; [auto with quiet|].
      apply quiet_bind.
      + destruct (ExportThread.audio_file self); auto with quiet.
      + intros b. destruct (ExportThread.audio_file self) as [a|].
        * destruct b; [apply quiet_export_with_audio|apply quiet_export_video_only].
        * apply quiet_export_video_only. }
  destruct (Hq w) as (evs & Hout & Hall).
  destruct (inner w) as [[[]|ex] w1]; cbn [snd] in Hout.
  + eexists _, evs, _, _. cbn. split; [reflexivity|]. split; [|done].
    by rewrite Hout, <- app_assoc.
  + eexists _, evs, _, _. cbn. split; [reflexivity|]. split; [|done].
    by rewrite Hout, <- app_assoc.
Qed.

Lemma emit_progress_exact n : forall i total scale w,
  ExportThread.emit_progress i n total scale w
  = (Ok tt, World (fs w) (out w ++ progress_events i n total scale)).
Proof.
induction n as [|n IH]; intros i total scale w.
- cbn. rewrite app_nil_r. by destruct w.
- cbn [ExportThread.emit_progress progress_events]. unfold bind, emit.
  rewrite IH. cbn [fs out]. by rewrite <- app_assoc.
Qed.

Lemma export_with_audio_exact self e a w h total rc output wd :
  ExportThread.ffmpeg e = exited rc output ->
  ExportThread._export_with_audio self e a w h total wd
  = (Ok tt,
     World (after_mux self e a w h output (fs wd))
           (out wd
            ++ progress_events 0 (length (ExportThread.frames self)) total 80
            ++ [progress_literal 100]
            ++ (if rc =? 0 then []
                else [printed_exn "FFmpeg merge error"
                        (FileNotFoundError (ExportThread.temp_video e))]))).
Proof.
intros Hff. unfold ExportThread._export_with_audio, bind at 1, write_file.
unfold bind at 1. rewrite emit_progress_exact.
unfold try_except. rewrite Hff.
erewrite bind_ok by apply subprocess_run_exited.
erewrite bind_ok by reflexivity.
erewrite bind_ok by apply remove_if_exists.
erewrite bind_ok by apply remove_if_exists.
cbn [fs out].
fold (after_mux self e a w h output (fs wd)).
destruct (rc =? 0); cbn [negb].
- unfold ret. by rewrite app_nil_r, <- app_assoc.
- unfold shutil_copy. cbn [fs out]. rewrite after_mux_no_temp.
  erewrite bind_ok by reflexivity.
  unfold bind, path_exists. cbn [fs out]. rewrite after_mux_no_temp.
  rewrite bool_decide_eq_false_2 by (intros [? ?]; congruence).
  unfold ret. by rewrite <- !app_assoc.
Qed.

(** X2.  A raster job without an audio path writes all the frames, in
    order, into one container at the output path, with the size of the first
    frame, the capture rate and the codec of the format (mp4v for mp4, XVID
    for avi, VP80 for webm, mp4v for anything else); nothing else in the file
    system changes, progress is signalled once per frame, and the job
    succeeds. *)
Theorem X2_raster_export_without_audio :
  (forall (self : ExportThread.t) (e : ExportThread.env) (w : world) f0 rest,
     ExportThread.frames self = f0 :: rest ->
     ExportThread.fmt self <> "gif" ->
     ExportThread.audio_file self = None ->
     let n := length (ExportThread.frames self) in
     ExportThread.run self e w
     = (Ok tt,
        World (<[ExportThread.path self :=
                   VideoFile (ExportThread.fourcc_map (ExportThread.fmt self))
                             (ExportThread.fps self) (cols f0, rows f0)
                             (ExportThread.frames self)]> (fs w))
              (out w ++ progress_events 0 n (Z.of_nat n) 100
               ++ [export_finished true (ExportThread.path self)])))
  /\ ExportThread.fourcc_map "mp4" = "mp4v"
  /\ ExportThread.fourcc_map "avi" = "XVID"
  /\ ExportThread.fourcc_map "webm" = "VP80"
  /\ (forall fmt : string,
        fmt <> "mp4" -> fmt <> "avi" -> fmt <> "webm" ->
        ExportThread.fourcc_map fmt = "mp4v").
Proof.
split; [|repeat split].
- intros self e w f0 rest Hfr Hfmt Ha n.
  unfold ExportThread.run, try_except.
  rewrite (run_nonempty self f0 rest Hfr).
  apply String.eqb_neq in Hfmt. rewrite Hfmt.
  subst n. rewrite Hfr in *. rewrite Ha.
  unfold bind at 1. unfold bind at 1. unfold ret at 1.
  unfold ExportThread._export_video_only, bind at 1, write_file.
  rewrite emit_progress_exact. rewrite Hfr.
  unfold emit. cbn [fs out]. by rewrite <- app_assoc.
- intros fmt H1 H2 H3. unfold ExportThread.fourcc_map.
  apply String.eqb_neq in H1, H2, H3. by rewrite H1, H2, H3.
Qed.

Lemma X2_witness :
  ExportThread.run
    (ExportThread.Build [small_frame 0; small_frame 1] "Rec_2.avi" 24 "avi" 10 None)
    mux_fails (World ∅ [])
  = (Ok tt,
     World (<["Rec_2.avi" := VideoFile "XVID" 24 (640, 480)
                               [small_frame 0; small_frame 1]]> ∅)
           [progress_updated 1 2 100; progress_updated 2 2 100;
            export_finished true "Rec_2.avi"]).
Proof.
apply (proj1 X2_raster_export_without_audio
         (ExportThread.Build [small_frame 0; small_frame 1] "Rec_2.avi" 24 "avi" 10 None)
         mux_fails (World ∅ []) (small_frame 0) [small_frame 1]).
- reflexivity.
- discriminate.
- reflexivity.
Defined.

(** X3.  When the multiplexer exits with code 0 having written its output,
    a raster job with an existing audio file ends with that output at the
    output path, with the temporary video and the audio file removed and
    every other path untouched; progress runs to 80% over the frames, then
    100%, then success is signalled. *)
Theorem X3_mux_success_cleans_up :
  forall (self : ExportThread.t) (e : ExportThread.env) (w : world) f0 rest a f,
    ExportThread.frames self = f0 :: rest ->
    ExportThread.fmt self <> "gif" ->
    ExportThread.audio_file self = Some a ->
    a <> "" ->
    is_Some (fs w !! a) ->
    ExportThread.ffmpeg e = exited 0 (Some f) ->
    ExportThread.path self <> ExportThread.temp_video e ->
    ExportThread.path self <> a ->
    let n := length (ExportThread.frames self) in
    exists w',
      ExportThread.run self e w = (Ok tt, w')
      /\ fs w' !! ExportThread.path self = Some f
      /\ fs w' !! ExportThread.temp_video e = None
      /\ fs w' !! a = None
      /\ (forall p, p <> ExportThread.path self -> p <> ExportThread.temp_video e ->
                    p <> a -> fs w' !! p = fs w !! p)
      /\ out w' = out w ++ progress_events 0 n (Z.of_nat n) 80
                  ++ [progress_literal 100; export_finished true (ExportThread.path self)].
Proof.
intros self e w f0 rest a f Hfr Hfmt Ha Hne Hex Hff Hpt Hpa n.
pose proof (export_with_audio_exact self e a (cols f0) (rows f0)
              (Z.of_nat n) 0 (Some f) w Hff) as Hbody.
eexists. split.
{ exact (run_with_audio self e w f0 rest a _ Hfr Hfmt Ha Hne Hex Hbody). }
cbn [fs out]. split; [|split; [|split; [|split]]].
- by rewrite after_mux_path.
- apply after_mux_no_temp.
- unfold after_mux. apply lookup_delete_eq.
- intros p H1 H2 H3. unfold after_mux.
  by rewrite !lookup_delete_ne, !lookup_insert_ne.
- cbn [Z.eqb]. rewrite app_nil_r. by rewrite <- !app_assoc.
Qed.

Lemma X3_witness :
  exists w',
    ExportThread.run mux_job
      (ExportThread.Env "temp_video_1.mp4" (exited 0 (Some (OtherFile 7)))) mux_world
    = (Ok tt, w')
    /\ fs w' !! "Rec_1.mp4" = Some (OtherFile 7)
    /\ fs w' !! "temp_video_1.mp4" = None
    /\ fs w' !! "screen_rec_audio_1.wav" = None.
Proof.
destruct (X3_mux_success_cleans_up mux_job
            (ExportThread.Env "temp_video_1.mp4" (exited 0 (Some (OtherFile 7))))
            mux_world (hd_frame 0) [hd_frame 1] "screen_rec_audio_1.wav" (OtherFile 7))
  as (w' & Hrun & Hp & Ht & Ha & _); try reflexivity; try discriminate.
- vm_compute. eauto.
- exists w'. by repeat split.
Defined.

(** X4.  When the multiplexer cannot be launched, a raster job with an
    existing audio file still succeeds: the intermediate video is copied to
    the output path.  Nothing is cleaned up on this path: the temporary video
    stays, and so does the audio file. *)
Theorem X4_launch_failure_falls_back_to_video :
  forall (self : ExportThread.t) (e : ExportThread.env) (w : world) f0 rest a ex,
    ExportThread.frames self = f0 :: rest ->
    ExportThread.fmt self <> "gif" ->
    ExportThread.audio_file self = Some a ->
    a <> "" ->
    is_Some (fs w !! a) ->
    ExportThread.ffmpeg e = launch_raises ex ->
    ExportThread.temp_video e <> ExportThread.path self ->
    a <> ExportThread.path self ->
    a <> ExportThread.temp_video e ->
    let video := VideoFile "mp4v" (ExportThread.fps self) (cols f0, rows f0)
                           (ExportThread.frames self) in
    exists w' evs,
      ExportThread.run self e w = (Ok tt, w')
      /\ out w' = out w ++ evs ++ [export_finished true (ExportThread.path self)]
      /\ fs w' !! ExportThread.path self = Some video
      /\ fs w' !! ExportThread.temp_video e = Some video
      /\ fs w' !! a = fs w !! a.
Proof.
intros self e w f0 rest a ex Hfr Hfmt Ha Hne Hex Hff Htp Hap Hat video.
destruct (run_mux_launch_fails self e w f0 rest a ex Hfr Hfmt Ha Hne Hex Hff Htp)
  as [evs Hrun].
eexists _, evs. split; [exact Hrun|]. cbn [fs out].
split; [reflexivity|]. split; [apply lookup_insert_eq|]. split.
- rewrite lookup_insert_ne by congruence. apply lookup_insert_eq.
- by rewrite !lookup_insert_ne by congruence.
Qed.

Lemma X4_witness :
  exists w' evs,
    ExportThread.run mux_job
      (ExportThread.Env "temp_video_1.mp4" (launch_raises (OSError "ffmpeg"))) mux_world
    = (Ok tt, w')
    /\ out w' = out mux_world ++ evs ++ [export_finished true "Rec_1.mp4"]
    /\ fs w' !! "Rec_1.mp4"
       = Some (VideoFile "mp4v" 30 (1920, 1080) [hd_frame 0; hd_frame 1])
    /\ fs w' !! "temp_video_1.mp4"
       = Some (VideoFile "mp4v" 30 (1920, 1080) [hd_frame 0; hd_frame 1])
    /\ fs w' !! "screen_rec_audio_1.wav" = fs mux_world !! "screen_rec_audio_1.wav".
Proof.
apply (X4_launch_failure_falls_back_to_video mux_job
         (ExportThread.Env "temp_video_1.mp4" (launch_raises (OSError "ffmpeg")))
         mux_world (hd_frame 0) [hd_frame 1] "screen_rec_audio_1.wav" (OSError "ffmpeg"));
  try reflexivity; try discriminate.
vm_compute. eauto.
Defined.

(** X5.  An animated-image job whose target rate is 0 fails with the
    message of the division error; it writes no file and signals nothing
    but the failure. *)
Theorem X5_gif_rate_zero_fails :
  forall (self : ExportThread.t) (e : ExportThread.env) (w : world) f0 rest,
    ExportThread.frames self = f0 :: rest ->
    ExportThread.fmt self = "gif" ->
    ExportThread.gif_fps self = 0 ->
    ExportThread.run self e w
    = (Ok tt, World (fs w) (out w ++ [export_finished false (exn_str ZeroDivisionError)])).
Proof.
intros self e w f0 rest Hfr Hfmt Hz. unfold ExportThread.run, try_except.
rewrite (run_nonempty self f0 rest Hfr). rewrite Hfmt, Hz.
reflexivity.
Qed.

Lemma X5_witness :
  ExportThread.run (gif_job 30 0) mux_fails mux_world
  = (Ok tt,
     World (fs mux_world)
           (out mux_world ++ [export_finished false (exn_str ZeroDivisionError)])).
Proof.
apply (X5_gif_rate_zero_fails (gif_job 30 0) mux_fails mux_world
         (hd_frame 0) (map hd_frame (seq 1 6))); reflexivity.
Defined.

(** X6.  An animated-image job never looks at its audio path or at the
    multiplexer: it behaves as the job without audio in any environment.
    Whether it succeeds or fails, it leaves every path other than its output
    path as it was; and when its frames can all be prepared it leaves an
    animated image at the output path. *)
Theorem X6_gif_ignores_audio :
  (forall (self : ExportThread.t) (e e' : ExportThread.env) (w : world),
     ExportThread.fmt self = "gif" ->
     ExportThread.run self e w = ExportThread.run (without_audio self) e' w)
  /\ (forall (self : ExportThread.t) (e : ExportThread.env) (w : world),
        ExportThread.fmt self = "gif" ->
        exists w',
          ExportThread.run self e w = (Ok tt, w')
          /\ forall p, p <> ExportThread.path self -> fs w' !! p = fs w !! p)
  /\ (forall (self : ExportThread.t) (e : ExportThread.env) (w : world) f0 rest,
        ExportThread.frames self = f0 :: rest ->
        ExportThread.fmt self = "gif" ->
        ExportThread.gif_fps self <> 0 ->
        Forall (fun f => gif_preparable f = true) (ExportThread.frames self) ->
        exists w' imgs,
          ExportThread.run self e w = (Ok tt, w')
          /\ fs w' !! ExportThread.path self
             = Some (GifFile (ExportThread.gif_fps self) imgs)).
Proof.
split; [|split].
- intros [fr p r fm g au] e e' w Hfmt. cbn in Hfmt. subst fm.
  reflexivity.
- intros self e w Hfmt. exact (run_gif_elsewhere self e w Hfmt).
- intros self e w f0 rest Hfr Hfmt Hgif Hall.
  destruct (run_gif_preparable self e w f0 rest _ Hfr Hfmt
              (gif_step_value (ExportThread.fps self) _ Hgif) Hall)
    as (imgs & evs & _ & Hrun).
  eexists _, imgs. split; [exact Hrun|]. cbn [fs]. apply lookup_insert_eq.
Qed.

Lemma X6_witness :
  ExportThread.run
    (ExportThread.Build [hd_frame 0] "Rec_1.gif" 30 "gif" 10
       (Some "screen_rec_audio_1.wav")) mux_fails mux_world
  = ExportThread.run
      (without_audio
         (ExportThread.Build [hd_frame 0] "Rec_1.gif" 30 "gif" 10
            (Some "screen_rec_audio_1.wav")))
      (ExportThread.Env "temp_video_2.mp4" (launch_raises (OSError "ffmpeg")))
      mux_world
  /\ (exists w',
        ExportThread.run strip_job mux_fails mux_world = (Ok tt, w')
        /\ forall p, p <> "Rec_1.gif" -> fs w' !! p = fs mux_world !! p)
  /\ (exists w' imgs,
        ExportThread.run (gif_job 30 10) mux_fails mux_world = (Ok tt, w')
        /\ fs w' !! "Rec_1.gif" = Some (GifFile 10 imgs)).
Proof.
split; [|split].
- apply (proj1 X6_gif_ignores_audio). reflexivity.
- apply (proj1 (proj2 X6_gif_ignores_audio) strip_job). reflexivity.
- apply (proj2 (proj2 X6_gif_ignores_audio) (gif_job 30 10) mux_fails mux_world
           (hd_frame 0) (map hd_frame (seq 1 6))).
  + reflexivity.
  + reflexivity.
  + discriminate.
  + repeat constructor.
Defined.

(** ** The capture thread and the session *)

Lemma counts_of_app evs1 evs2 :
  counts_of (evs1 ++ evs2) = counts_of evs1 ++ counts_of evs2.
Proof. apply omap_app. Qed.

Lemma loop_counts tks : forall fr count w,
  exists evs,
    RecordThread.loop tks (fr, count) w
    = (Ok (fr ++ captured tks, count + Z.of_nat (length (captured tks))),
       World (fs w) (out w ++ evs))
    /\ counts_of evs
       = map (fun i => count + Z.of_nat i) (seq 1 (length (captured tks))).
Proof.
induction tks as [|tk rest IH]; intros fr count w.
- exists []. cbn. rewrite !app_nil_r, Z.add_0_r. by destruct w.
- rewrite loop_cons. destruct tk as [e|e|img].
  + rewrite loop_body_grab_raises.
    destruct (IH fr count (World (fs w) (out w ++ [printed_exn "Record error" e])))
      as (evs & -> & Hc).
    exists (printed_exn "Record error" e :: evs). cbn [fs out]. split.
    * by rewrite <- app_assoc.
    * exact Hc.
  + rewrite loop_body_convert_raises.
    destruct (IH fr count (World (fs w) (out w ++ [printed_exn "Record error" e])))
      as (evs & -> & Hc).
    exists (printed_exn "Record error" e :: evs). cbn [fs out]. split.
    * by rewrite <- app_assoc.
    * exact Hc.
  + rewrite loop_body_grabbed.
    destruct (IH (fr ++ [cv2_cvtColor img BGR]) (count + 1)
                 (World (fs w) (out w ++ [frame_captured (count + 1)])))
      as (evs & -> & Hc).
    exists (frame_captured (count + 1) :: evs). cbn [fs out]. split.
    * rewrite <- !app_assoc.
      change (captured (grabbed img :: rest))
        with (cv2_cvtColor img BGR :: captured rest).
      cbn [length app]. f_equal. f_equal. f_equal. lia.
    * change (captured (grabbed img :: rest))
        with (cv2_cvtColor img BGR :: captured rest).
      change (counts_of (frame_captured (count + 1) :: evs))
        with ((count + 1) :: counts_of evs).
      rewrite Hc. cbn [length seq map]. f_equal.
      rewrite <- (seq_shift (length (captured rest)) 1), map_map.
      apply map_ext. intros i. lia.
Qed.

(** X7.  The frame-captured signals of a capture run carry the numbers
    1, 2, ..., k in this order, k being the number of frames captured:
    failed ticks neither consume a number nor emit a signal. *)
Theorem X7_frame_numbers_are_consecutive :
  forall (tks : list tick) (w : world),
    exists evs,
      RecordThread.loop tks ([], 0) w
      = (Ok (captured tks, Z.of_nat (length (captured tks))),
         World (fs w) (out w ++ evs))
      /\ counts_of evs = map Z.of_nat (seq 1 (length (captured tks))).
Proof.
intros tks w. destruct (loop_counts tks [] 0 w) as (evs & Hrun & Hc).
exists evs. split; [exact Hrun|]. rewrite Hc. apply map_ext. intros i. lia.
Qed.

(** What a stop of a running sub-run leaves in the session's thread slot. *)
Lemma stop_recording_thread self finish env w th :
  ScreenRecorder.record_thread self = Some th ->
  RecordThread.is_recording th = true ->
  RecordThread.fps th <> 0 ->
  exists th' w',
    ScreenRecorder.stop_recording self finish env w
    = (Ok (ScreenRecorder.Build
             (ScreenRecorder.frames self ++ captured (ticks env)) false (Some th')
             (ScreenRecorder.record_time self) (audio_file_after th env)), w')
    /\ RecordThread.frames th' = captured (ticks env)
    /\ RecordThread.is_recording th' = false.
Proof.
intros Hth Hrun Hfps. unfold ScreenRecorder.stop_recording, bind.
rewrite Hth, Hrun.
destruct (run_total th env w Hfps) as (th' & w' & -> & Hfr & Hrec & _ & Haf & _).
exists th', w'. unfold ret, RecordThread.get_audio_file.
by rewrite Hfr, Haf.
Qed.

(** X8.  [stop_recording] is not idempotent: the finished thread stays in
    the session, so a second stop without a start in between appends the
    frames of the last sub-run once more. *)
Theorem X8_second_stop_appends_again :
  forall (AUDIO_AVAILABLE : bool) (self : ScreenRecorder.t) (rate : capture_rate)
         (audio : bool) (env env' : subrun) (w : world),
    exists s w',
      ScreenRecorder.steps AUDIO_AVAILABLE self
        [ScreenRecorder.Start rate audio; ScreenRecorder.Stop env;
         ScreenRecorder.Stop env'] w = (Ok s, w')
      /\ ScreenRecorder.frames s
         = ScreenRecorder.frames self
           ++ captured (ticks env) ++ captured (ticks env).
Proof.
intros AA self rate audio env env' w.
cbn [ScreenRecorder.steps ScreenRecorder.step]. unfold bind. unfold ret at 1.
edestruct (stop_recording_thread
             (ScreenRecorder.start_recording AA self rate audio) true env w)
  as (th' & w' & -> & Hfr & Hrec); [reflexivity|reflexivity| |].
{ cbn. apply rate_value_nonzero. }
unfold ScreenRecorder.stop_recording at 1.
cbn [ScreenRecorder.record_thread]. rewrite Hrec. unfold bind, ret.
eexists _, _. split; [reflexivity|]. cbn [ScreenRecorder.frames].
by rewrite Hfr, start_recording_frames, <- app_assoc.
Qed.

(** X9.  Only the last sub-run's audio is kept: after a reselection the
    session's audio path is the temporary path of the second sub-run when
    that one recorded audio, and [None] when it did not, whatever the first
    sub-run had stored. *)
Theorem X9_latest_subrun_audio_replaces_earlier :
  forall (AUDIO_AVAILABLE : bool) (self : ScreenRecorder.t) (rate1 rate2 : capture_rate)
         (audio1 audio2 : bool) (env1 env2 : subrun) (w : world),
    exists s w',
      ScreenRecorder.steps AUDIO_AVAILABLE self
        [ScreenRecorder.Start rate1 audio1; ScreenRecorder.Reselect env1;
         ScreenRecorder.Start rate2 audio2; ScreenRecorder.Stop env2] w = (Ok s, w')
      /\ ScreenRecorder.audio_file s
         = if audio2 && AUDIO_AVAILABLE then Some (audio_tmp env2) else None.
Proof.
intros AA self rate1 rate2 audio1 audio2 env1 env2 w.
cbn [ScreenRecorder.steps ScreenRecorder.step]. unfold bind. unfold ret at 1.
unfold ScreenRecorder.reselect_region.
destruct (start_then_stop AA self rate1 audio1 false env1 w)
  as (s1 & w1 & -> & _ & _).
unfold ret at 1.
edestruct (stop_recording_running
             (ScreenRecorder.start_recording AA s1 rate2 audio2) true env2 w1)
  as (s2 & w2 & -> & _ & Haf & _); [reflexivity|reflexivity| |].
{ cbn. apply rate_value_nonzero. }
exists s2, w2. split; [reflexivity|]. rewrite Haf.
unfold audio_file_after. cbn. by destruct (audio2 && AA).
Qed.

Lemma format_name_raster fm : fm <> GIF -> format_name fm <> "gif".
Proof. destruct fm; [discriminate|congruence|discriminate|discriminate]. Qed.

(** X10.  The audio file is used up by the first raster export: once the
    multiplexer has run, whatever its exit code, the file is gone while the
    session still names it, so a second raster export of the same session
    takes the video-only path and writes the bare frames. *)
Theorem X10_second_raster_export_has_no_audio :
  forall (s : ScreenRecorder.t) (fm1 fm2 : export_format) (g1 g2 : Z)
         (path1 path2 : string) (rate1 rate2 : capture_rate)
         (e1 e2 : ExportThread.env) (w : world) f0 rest a rc output,
    ScreenRecorder.frames s = f0 :: rest ->
    ScreenRecorder.audio_file s = Some a ->
    a <> "" ->
    is_Some (fs w !! a) ->
    fm1 <> GIF ->
    fm2 <> GIF ->
    ExportThread.ffmpeg e1 = exited rc output ->
    exists w1 w2 evs,
      ScreenRecorder.start_export s fm1 g1 path1 rate1 e1 w = (Ok s, w1)
      /\ fs w1 !! a = None
      /\ ScreenRecorder.start_export s fm2 g2 path2 rate2 e2 w1 = (Ok s, w2)
      /\ fs w2 = <[path2 := VideoFile (ExportThread.fourcc_map (format_name fm2))
                               (rate_value rate2) (cols f0, rows f0)
                               (ScreenRecorder.frames s)]> (fs w1)
      /\ out w2 = out w1 ++ evs ++ [export_finished true path2].
Proof.
intros s fm1 fm2 g1 g2 path1 path2 rate1 rate2 e1 e2 w f0 rest a rc output
       Hfr Ha Hne Hex H1 H2 Hff.
pose proof (format_name_raster fm1 H1) as Hn1.
pose proof (format_name_raster fm2 H2) as Hn2.
unfold ScreenRecorder.start_export. rewrite Hfr, <- Hfr.
unfold bind.
rewrite (proj2 (String.eqb_neq _ _) Hn1), (proj2 (String.eqb_neq _ _) Hn2).
edestruct (run_mux_exited
             (ExportThread.Build (ScreenRecorder.frames s) path1 (rate_value rate1)
                (format_name fm1) g1 (ScreenRecorder.audio_file s))
             e1 w f0 rest a rc output) as [evs1 Hrun1]; try done.
rewrite Hrun1.
set (w1 := World _ (out w ++ evs1 ++ _)).
assert (fs w1 !! a = None) as Hgone.
{ subst w1. cbn [fs]. unfold after_mux. apply lookup_delete_eq. }
edestruct (run_video_only
             (ExportThread.Build (ScreenRecorder.frames s) path2 (rate_value rate2)
                (format_name fm2) g2 (ScreenRecorder.audio_file s))
             e2 w1 f0 rest) as [evs2 Hrun2]; try done.
{ cbn [ExportThread.audio_file]. rewrite Ha. by right. }
unfold ret. exists w1. eexists _, evs2. split; [reflexivity|].
split; [exact Hgone|]. rewrite Hrun2. by repeat split.
Qed.

Lemma X10_witness :
  exists w1 w2 evs,
    ScreenRecorder.start_export finished_session MP4 10 "Rec_1.mp4" FPS30
      mux_fails mux_world = (Ok finished_session, w1)
    /\ fs w1 !! "screen_rec_audio_1.wav" = None
    /\ ScreenRecorder.start_export finished_session AVI 10 "Rec_2.avi" FPS30
         mux_fails w1 = (Ok finished_session, w2)
    /\ fs w2 = <["Rec_2.avi" := VideoFile "XVID" 30 (1920, 1080) [hd_frame 0]]> (fs w1)
    /\ out w2 = out w1 ++ evs ++ [export_finished true "Rec_2.avi"].
Proof.
apply (X10_second_raster_export_has_no_audio finished_session MP4 AVI 10 10
         "Rec_1.mp4" "Rec_2.avi" FPS30 FPS30 mux_fails mux_fails mux_world
         (hd_frame 0) [] "screen_rec_audio_1.wav" 1 None);
  try reflexivity; try discriminate.
vm_compute. eauto.
Defined.

(** ** The mixer *)

Lemma np_concatenate_from_uniform c chunks : forall acc,
  Forall (fun ch => np_channels ch = Some c) chunks ->
  np_concatenate_from (arr2 c acc) chunks
  = Ok (arr2 c (acc ++ concat (map np_rows chunks))).
Proof.
induction chunks as [|ch rest IH]; intros acc Hall.
- cbn. by rewrite app_nil_r.
- inversion Hall as [|? ? Hch Hrest]; subst.
  destruct ch as [xs|c' rws]; [discriminate|].
  cbn in Hch. injection Hch as ->.
  cbn [np_concatenate_from np_concat2]. rewrite Nat.eqb_refl.
  rewrite IH by done. cbn [map concat np_rows]. by rewrite app_assoc.
Qed.

Lemma np_concatenate_uniform c chunks :
  chunks <> [] ->
  Forall (fun ch => np_channels ch = Some c) chunks ->
  np_concatenate chunks = Ok (arr2 c (concat (map np_rows chunks))).
Proof.
intros Hne Hall. destruct chunks as [|ch rest]; [done|].
inversion Hall as [|? ? Hch Hrest]; subst.
destruct ch as [xs|c' rws]; [discriminate|].
cbn in Hch. injection Hch as ->.
cbn [np_concatenate]. by rewrite np_concatenate_from_uniform.
Qed.

Lemma joined_length c chunks :
  Forall (fun ch => np_channels ch = Some c) chunks ->
  length (concat (map np_rows chunks)) = list_sum (map np_len chunks).
Proof.
induction 1 as [|ch rest Hch _ IH]; [reflexivity|].
destruct ch as [xs|c' rws]; [discriminate|].
cbn [map concat np_rows list_sum np_len]. by rewrite length_app, IH.
Qed.

(** X11.  When only one source delivered chunks, all with the same number
    of channels, the file written holds these chunks joined in arrival order
    and coerced by [ensure_stereo]: each row [x] of a one-channel source
    becomes [x; x], the rows of a two-channel source are kept, and the
    number of rows is the total number of rows of the chunks. *)
Theorem X11_single_source_is_written_whole :
  forall (rate : Z) (chunks : list ndarray) (c : nat) (filepath : string) (w : world),
    chunks <> [] ->
    Forall (fun ch => np_channels ch = Some c) chunks ->
    let joined := concat (map np_rows chunks) in
    AudioRecordThread.save_to_file (AudioRecordThread.Build rate [] chunks) None filepath w
    = (Ok (Some filepath),
       World (<[filepath := WavFile rate (AudioRecordThread.ensure_stereo (arr2 c joined))]>
                (fs w))
             (out w ++ [printed "Mic audio"]))
    /\ AudioRecordThread.save_to_file (AudioRecordThread.Build rate chunks []) None filepath w
       = (Ok (Some filepath),
          World (<[filepath := WavFile rate (AudioRecordThread.ensure_stereo (arr2 c joined))]>
                   (fs w))
                (out w ++ [printed "System audio"]))
    /\ np_len (AudioRecordThread.ensure_stereo (arr2 c joined))
       = list_sum (map np_len chunks)
    /\ (c = 1%nat ->
        forall i x, joined !! i = Some [x] -> stereo_rows (arr2 c joined) !! i = Some [x; x])
    /\ (c = 2%nat -> AudioRecordThread.ensure_stereo (arr2 c joined) = arr2 2 joined).
Proof.
intros rate chunks c filepath w Hne Hall joined.
pose proof (np_concatenate_uniform c chunks Hne Hall) as Hcat.
split; [by apply save_mic_only|]. split; [by apply save_system_only|].
split; [|split].
- rewrite ensure_stereo_len. cbn [np_len]. by apply joined_length with c.
- intros -> i x Hi. unfold stereo_rows. cbn [AudioRecordThread.ensure_stereo Nat.eqb np_rows].
  by rewrite lookup_map, Hi.
- by intros ->.
Qed.

Lemma X11_witness :
  AudioRecordThread.save_to_file
    (AudioRecordThread.Build 44100 [] [mono_chunk; mono_chunk]) None
    "screen_rec_audio_1.wav" (World ∅ [])
  = (Ok (Some "screen_rec_audio_1.wav"),
     World (<["screen_rec_audio_1.wav" :=
                WavFile 44100 (arr2 2 [[sample 5; sample 5]; [sample 5; sample 5]])]> ∅)
           [printed "Mic audio"]).
Proof.
apply (proj1 (X11_single_source_is_written_whole 44100 [mono_chunk; mono_chunk] 1
                "screen_rec_audio_1.wav" (World ∅ []) ltac:(discriminate)
                ltac:(repeat constructor))).
Defined.

(** X12.  When both sources delivered chunks and each has one or two
    channels, the file written is the two-channel array of the sample-wise
    float32 means of the two coerced sources over their common length:
    min(N1, N2) rows, row i being the means of rows i of the two sources. *)
Theorem X12_two_sources_are_averaged :
  forall (rate : Z) (sys mic : list ndarray) (ca cb : nat) (filepath : string)
         (w : world),
    sys <> [] -> mic <> [] ->
    Forall (fun ch => np_channels ch = Some ca) sys ->
    Forall (fun ch => np_channels ch = Some cb) mic ->
    (ca = 1 \/ ca = 2)%nat ->
    (cb = 1 \/ cb = 2)%nat ->
    let a := arr2 ca (concat (map np_rows sys)) in
    let b := arr2 cb (concat (map np_rows mic)) in
    let mixed := zip_with (zip_with mean2) (stereo_rows a) (stereo_rows b) in
    AudioRecordThread.save_to_file (AudioRecordThread.Build rate sys mic) None filepath w
    = (Ok (Some filepath),
       World (<[filepath := WavFile rate (arr2 2 mixed)]> (fs w))
             (out w ++ [printed "System audio"; printed "Mic audio"]))
    /\ length mixed = Nat.min (list_sum (map np_len sys)) (list_sum (map np_len mic))
    /\ forall i ra rb,
         stereo_rows a !! i = Some ra -> stereo_rows b !! i = Some rb ->
         mixed !! i = Some (zip_with mean2 ra rb).
Proof.
intros rate sys mic ca cb filepath w Hs Hm Hsa Hmb Hca Hcb a b mixed.
pose proof (np_concatenate_uniform ca sys Hs Hsa) as Hcs.
pose proof (np_concatenate_uniform cb mic Hm Hmb) as Hcm.
assert (AudioRecordThread.ensure_stereo a = arr2 2 (stereo_rows a)) as Hea.
{ unfold stereo_rows, a. by destruct Hca as [-> | ->]. }
assert (AudioRecordThread.ensure_stereo b = arr2 2 (stereo_rows b)) as Heb.
{ unfold stereo_rows, b. by destruct Hcb as [-> | ->]. }
destruct (save_two_sources rate sys mic a b (stereo_rows a) (stereo_rows b)
            filepath w Hcs Hcm Hea Heb) as [Hsave Hlen].
split; [exact Hsave|]. split.
- fold mixed in Hlen. rewrite Hlen. unfold a, b. cbn [np_len].
  by rewrite (joined_length ca sys Hsa), (joined_length cb mic Hmb).
- intros i ra rb Ha Hb. subst mixed. rewrite lookup_zip_with, Ha. cbn. by rewrite Hb.
Qed.

Lemma X12_witness :
  AudioRecordThread.save_to_file
    (AudioRecordThread.Build 44100 [stereo_chunk] [mono_chunk; mono_chunk]) None
    "screen_rec_audio_1.wav" (World ∅ [])
  = (Ok (Some "screen_rec_audio_1.wav"),
     World (<["screen_rec_audio_1.wav" :=
                WavFile 44100 (arr2 2 [[sample 3; sample 4]])]> ∅)
           [printed "System audio"; printed "Mic audio"]).
Proof.
apply (proj1 (X12_two_sources_are_averaged 44100 [stereo_chunk]
                [mono_chunk; mono_chunk] 2 1 "screen_rec_audio_1.wav" (World ∅ [])
                ltac:(discriminate) ltac:(discriminate)
                ltac:(repeat constructor) ltac:(repeat constructor)
                ltac:(by right) ltac:(by left))).
Defined.

(** ** The region selector *)

Lemma py_min_spec xs : forall x,
  py_min x xs <= x /\ forall y, In y xs -> py_min x xs <= y.
Proof.
unfold py_min. induction xs as [|z xs IH]; intros x; cbn [fold_left].
- split; [lia|]. intros y [].
- destruct (IH (Z.min x z)) as [H1 H2]. split; [lia|].
  intros y [<-|Hy]; [lia|]. by apply H2.
Qed.

Lemma py_max_spec xs : forall x,
  x <= py_max x xs /\ forall y, In y xs -> y <= py_max x xs.
Proof.
unfold py_max. induction xs as [|z xs IH]; intros x; cbn [fold_left].
- split; [lia|]. intros y [].
- destruct (IH (Z.max x z)) as [H1 H2]. split; [lia|].
  intros y [<-|Hy]; [lia|]. by apply H2.
Qed.

(** X13.  The virtual geometry computed from the screens contains every
    screen; without screens it is the primary screen's geometry.  A
    selection that, in the selector's own coordinates, lies on the image of
    a screen is handed over as a region lying on that screen, with the
    selection's size. *)
Theorem X13_virtual_geometry_contains_screens :
  (forall primary, RegionSelector._get_virtual_geometry [] primary = primary)
  /\ (forall (screens : list QRect.t) (primary s : QRect.t),
        In s screens ->
        let vg := RegionSelector._get_virtual_geometry screens primary in
        QRect.left vg <= QRect.left s
        /\ QRect.top vg <= QRect.top s
        /\ QRect.right s <= QRect.right vg
        /\ QRect.bottom s <= QRect.bottom vg)
  /\ (forall (vg s current_rect : QRect.t),
        QRect.left s - QRect.left vg <= QRect.left current_rect ->
        QRect.right current_rect <= QRect.right s - QRect.left vg ->
        QRect.top s - QRect.top vg <= QRect.top current_rect ->
        QRect.bottom current_rect <= QRect.bottom s - QRect.top vg ->
        let reg := RegionSelector.get_current_region current_rect vg in
        QRect.left s <= r_left reg
        /\ r_left reg + r_width reg <= QRect.left s + QRect.width s
        /\ QRect.top s <= r_top reg
        /\ r_top reg + r_height reg <= QRect.top s + QRect.height s
        /\ r_width reg = QRect.width current_rect
        /\ r_height reg = QRect.height current_rect).
Proof.
split; [reflexivity|]. split.
- intros screens primary s Hin vg. subst vg.
  destruct screens as [|s0 rest]; [destruct Hin|].
  cbn [RegionSelector._get_virtual_geometry].
  unfold QRect.xywh, QRect.left, QRect.top, QRect.right, QRect.bottom.
  cbn [QRect.x1 QRect.y1 QRect.x2 QRect.y2].
  destruct (py_min_spec (map QRect.x1 rest) (QRect.x1 s0)) as [Hx0 Hx].
  destruct (py_min_spec (map QRect.y1 rest) (QRect.y1 s0)) as [Hy0 Hy].
  destruct (py_max_spec (map (fun s => QRect.x1 s + QRect.width s) rest)
              (QRect.x1 s0 + QRect.width s0)) as [HX0 HX].
  destruct (py_max_spec (map (fun s => QRect.y1 s + QRect.height s) rest)
              (QRect.y1 s0 + QRect.height s0)) as [HY0 HY].
  destruct Hin as [<-|Hin].
  + unfold QRect.width, QRect.height in *. lia.
  + pose proof (Hx _ (in_map QRect.x1 _ _ Hin)).
    pose proof (Hy _ (in_map QRect.y1 _ _ Hin)).
    pose proof (HX _ (in_map (fun s => QRect.x1 s + QRect.width s) _ _ Hin)) as HXs.
    pose proof (HY _ (in_map (fun s => QRect.y1 s + QRect.height s) _ _ Hin)) as HYs.
    cbv beta in HXs, HYs. unfold QRect.width, QRect.height in *. lia.
- intros vg s r H1 H2 H3 H4 reg. subst reg.
  unfold RegionSelector.get_current_region. cbn [r_left r_top r_width r_height].
  unfold QRect.left, QRect.top, QRect.right, QRect.bottom, QRect.width, QRect.height in *.
  lia.
Qed.

Lemma X13_witness :
  QRect.left (RegionSelector._get_virtual_geometry
                [QRect.xywh 0 0 1920 1080; QRect.xywh (-1280) 56 1280 1024] QRect.null)
  <= QRect.left (QRect.xywh (-1280) 56 1280 1024)
  /\ QRect.top (RegionSelector._get_virtual_geometry
                  [QRect.xywh 0 0 1920 1080; QRect.xywh (-1280) 56 1280 1024] QRect.null)
     <= QRect.top (QRect.xywh (-1280) 56 1280 1024)
  /\ QRect.right (QRect.xywh (-1280) 56 1280 1024)
     <= QRect.right (RegionSelector._get_virtual_geometry
                       [QRect.xywh 0 0 1920 1080; QRect.xywh (-1280) 56 1280 1024]
                       QRect.null)
  /\ QRect.bottom (QRect.xywh (-1280) 56 1280 1024)
     <= QRect.bottom (RegionSelector._get_virtual_geometry
                        [QRect.xywh 0 0 1920 1080; QRect.xywh (-1280) 56 1280 1024]
                        QRect.null).
Proof.
apply (proj1 (proj2 X13_virtual_geometry_contains_screens)
         [QRect.xywh 0 0 1920 1080; QRect.xywh (-1280) 56 1280 1024] QRect.null
         (QRect.xywh (-1280) 56 1280 1024)).
right. left. reflexivity.
Defined.

Lemma center_between (r : QRect.t) :
  QRect.isEmpty r = false ->
  QRect.left r <= px (QRect.center r) <= QRect.right r
  /\ QRect.top r <= py (QRect.center r) <= QRect.bottom r.
Proof.
unfold QRect.isEmpty, QRect.center, QRect.left, QRect.right, QRect.top, QRect.bottom.
cbn [px py]. intros H. apply orb_false_elim in H as [Hx Hy].
apply Z.ltb_ge in Hx, Hy. Z.quot_rem_to_equations. lia.
Qed.

Lemma near_spec a b s : RegionSelector.near a b s = true <-> Z.abs (a - b) < s.
Proof. unfold RegionSelector.near. apply Z.ltb_lt. Qed.

Lemma near_false a b s : RegionSelector.near a b s = false <-> s <= Z.abs (a - b).
Proof. unfold RegionSelector.near. apply Z.ltb_ge. Qed.

Lemma contains_spec (r : QRect.t) (p : QPoint) :
  QRect.isEmpty r = false ->
  QRect.contains r p = true
  <-> (QRect.left r <= px p <= QRect.right r /\ QRect.top r <= py p <= QRect.bottom r).
Proof.
unfold QRect.isEmpty, QRect.contains, QRect.left, QRect.right, QRect.top, QRect.bottom.
intros H. apply orb_false_elim in H as [Hx Hy]. apply Z.ltb_ge in Hx, Hy.
rewrite (proj2 (Z.ltb_ge _ _)) by lia.
rewrite (proj2 (Z.ltb_ge (QRect.y2 r) (QRect.y1 r - 1))) by lia.
destruct (px p <? QRect.x1 r) eqn:E1; destruct (QRect.x2 r <? px p) eqn:E2;
  destruct (py p <? QRect.y1 r) eqn:E3; destruct (QRect.y2 r <? py p) eqn:E4;
  cbn [orb];
  try apply Z.ltb_lt in E1; try apply Z.ltb_ge in E1;
  try apply Z.ltb_lt in E2; try apply Z.ltb_ge in E2;
  try apply Z.ltb_lt in E3; try apply Z.ltb_ge in E3;
  try apply Z.ltb_lt in E4; try apply Z.ltb_ge in E4;
  split; intros; try discriminate; try lia; reflexivity.
Qed.

(** The tests of [hit_test] turned into inequalities. *)
Ltac near_cases :=
  repeat match goal with
  | |- context [RegionSelector.near ?a ?b ?s] =>
      let E := fresh "E" in
      destruct (RegionSelector.near a b s) eqn:E;
      [apply near_spec in E | apply near_false in E]
  end.

(** X14.  [hit_test] on an empty rectangle hits nothing.  On a non-empty
    one, every point of the rectangle hits something (a handle or the move
    area), the move area is only hit inside the rectangle, and a point 15
    pixels or more outside the rectangle, horizontally or vertically, hits
    nothing. *)
Theorem X14_hit_test_coverage :
  (forall r p, QRect.isEmpty r = true ->
               RegionSelector.hit_test r p = RegionSelector.Mode_None)
  /\ (forall r p, QRect.isEmpty r = false -> QRect.contains r p = true ->
                  RegionSelector.hit_test r p <> RegionSelector.Mode_None)
  /\ (forall r p, RegionSelector.hit_test r p = RegionSelector.Mode_Move ->
                  QRect.isEmpty r = false /\ QRect.contains r p = true)
  /\ (forall r p,
        px p <= QRect.left r - 15 \/ QRect.right r + 15 <= px p
        \/ py p <= QRect.top r - 15 \/ QRect.bottom r + 15 <= py p ->
        RegionSelector.hit_test r p = RegionSelector.Mode_None).
Proof.
split; [|split; [|split]].
- intros r p H. unfold RegionSelector.hit_test. by rewrite H.
- intros r p He Hc. unfold RegionSelector.hit_test. rewrite He, Hc.
  repeat match goal with |- context [if ?b then _ else _] => destruct b end;
    discriminate.
- intros r p H. unfold RegionSelector.hit_test in H.
  destruct (QRect.isEmpty r); [discriminate|]. split; [reflexivity|].
  repeat match type of H with context [if ?b then _ else _] =>
    destruct b eqn:?; try discriminate end.
  reflexivity.
- intros r p Hfar. unfold RegionSelector.hit_test.
  destruct (QRect.isEmpty r) eqn:He; [reflexivity|].
  pose proof (center_between r He) as [Hcx Hcy].
  change (RegionSelector.handle_size + 5) with 15.
  destruct (QRect.contains r p) eqn:Hc.
  + apply (contains_spec r p He) in Hc. lia.
  + near_cases; cbn [andb]; try reflexivity; exfalso; lia.
Qed.

Lemma X14_witness :
  RegionSelector.hit_test (QRect.xywh 100 100 200 150) (Point 350 120)
  = RegionSelector.Mode_None
  /\ RegionSelector.hit_test (QRect.xywh 100 100 200 150) (Point 200 170)
     <> RegionSelector.Mode_None.
Proof.
split.
- apply (proj2 (proj2 (proj2 X14_hit_test_coverage))). cbn. lia.
- apply (proj1 (proj2 X14_hit_test_coverage)); reflexivity.
Defined.

(** X15.  The handles in the middle of the edges need room: on a rectangle
    whose left and right edges are less than 30 pixels apart no point hits
    the top or the bottom handle, and when the top and bottom edges are less
    than 30 apart no point hits the left or the right handle (the corner
    handles take every point near such an edge). *)
Theorem X15_narrow_rectangles_lose_edge_handles :
  forall (r : QRect.t) (p : QPoint),
    (QRect.right r - QRect.left r < 30 ->
     RegionSelector.hit_test r p <> RegionSelector.Mode_Resize_T
     /\ RegionSelector.hit_test r p <> RegionSelector.Mode_Resize_B)
    /\ (QRect.bottom r - QRect.top r < 30 ->
        RegionSelector.hit_test r p <> RegionSelector.Mode_Resize_L
        /\ RegionSelector.hit_test r p <> RegionSelector.Mode_Resize_R).
Proof.
intros r p. unfold RegionSelector.hit_test.
destruct (QRect.isEmpty r) eqn:He; [by repeat split|].
pose proof (center_between r He) as [Hcx Hcy].
change (RegionSelector.handle_size + 5) with 15.
split; intros Hn; split;
  near_cases; cbn [andb]; try discriminate;
  try (destruct (QRect.contains r p); discriminate);
  exfalso; lia.
Qed.

Lemma X15_witness :
  RegionSelector.hit_test (QRect.xywh 100 100 20 200) (Point 110 100)
  <> RegionSelector.Mode_Resize_T
  /\ RegionSelector.hit_test (QRect.xywh 100 100 20 200) (Point 110 100)
     <> RegionSelector.Mode_Resize_B.
Proof.
apply (proj1 (X15_narrow_rectangles_lose_edge_handles
                (QRect.xywh 100 100 20 200) (Point 110 100))).
cbn. lia.
Defined.



(** Case analysis on every integer comparison of the goal. *)
Ltac ltb_cases :=
  repeat match goal with
  | |- context [?a <? ?b] =>
      let E := fresh "E" in
      destruct (a <? b) eqn:E;
      [apply Z.ltb_lt in E | apply Z.ltb_ge in E]
  end.

(** X17.  Resizing never produces a rectangle of negative width or height.
    A drag of zero length leaves a rectangle of non-negative size as it is,
    and on such a rectangle the handles of the top and bottom edges never
    change the horizontal extent while those of the left and right edges
    never change the vertical extent. *)
Theorem X17_handle_resize_keeps_rectangles_sane :
  forall (r : QRect.t) (m : RegionSelector.mode) (start_pos pos : QPoint),
    let r' := RegionSelector.handle_resize r m start_pos pos in
    (0 <= QRect.width r' /\ 0 <= QRect.height r')
    /\ (0 <= QRect.width r -> 0 <= QRect.height r ->
        RegionSelector.handle_resize r m start_pos start_pos = r)
    /\ (0 <= QRect.width r ->
        RegionSelector.moves_left m = false -> RegionSelector.moves_right m = false ->
        QRect.left r' = QRect.left r /\ QRect.right r' = QRect.right r)
    /\ (0 <= QRect.height r ->
        RegionSelector.moves_top m = false -> RegionSelector.moves_bottom m = false ->
        QRect.top r' = QRect.top r /\ QRect.bottom r' = QRect.bottom r).
Proof.
intros r m s p r'. subst r'.
unfold RegionSelector.handle_resize, QRect.normalized, QRect.of_points,
  QRect.width, QRect.height, QRect.left, QRect.right, QRect.top, QRect.bottom.
cbn [px py QRect.x1 QRect.x2 QRect.y1 QRect.y2].
split; [|split; [|split]].
- ltb_cases; cbn [QRect.x1 QRect.x2 QRect.y1 QRect.y2]; lia.
- intros Hw Hh. rewrite !Z.sub_diag, !Z.add_0_r.
  destruct r as [a1 b1 a2 b2]. cbn [QRect.x1 QRect.x2 QRect.y1 QRect.y2] in *.
  destruct (RegionSelector.moves_left m), (RegionSelector.moves_right m),
    (RegionSelector.moves_top m), (RegionSelector.moves_bottom m);
    rewrite !(proj2 (Z.ltb_ge _ _)) by lia; reflexivity.
- intros Hw -> ->.
  rewrite (proj2 (Z.ltb_ge (QRect.x2 r) (QRect.x1 r - 1))) by lia.
  destruct (_ <? _); by cbn.
- intros Hh -> ->.
  rewrite (proj2 (Z.ltb_ge (QRect.y2 r) (QRect.y1 r - 1))) by lia.
  destruct (_ <? _); by cbn.
Qed.

Lemma X17_witness :
  QRect.left (RegionSelector.handle_resize (QRect.xywh 100 100 200 150)
                RegionSelector.Mode_Resize_B (Point 200 249) (Point 230 400))
  = QRect.left (QRect.xywh 100 100 200 150)
  /\ QRect.right (RegionSelector.handle_resize (QRect.xywh 100 100 200 150)
                    RegionSelector.Mode_Resize_B (Point 200 249) (Point 230 400))
     = QRect.right (QRect.xywh 100 100 200 150).
Proof.
apply (proj1 (proj2 (proj2 (X17_handle_resize_keeps_rectangles_sane
                              (QRect.xywh 100 100 200 150) RegionSelector.Mode_Resize_B
                              (Point 200 249) (Point 230 400))))).
- vm_compute. discriminate.
- reflexivity.
- reflexivity.
Defined.

(** ** The elapsed-time display *)

Lemma fmt_02d_digits n :
  0 <= n < 100 ->
  fmt_02d n = String (digit (n / 10)) (String (digit (n mod 10)) EmptyString).
Proof.
intros Hn.
assert (forallb (fun k => String.eqb (fmt_02d (Z.of_nat k))
                            (String (digit (Z.of_nat k / 10))
                               (String (digit (Z.of_nat k mod 10)) EmptyString)))
          (seq 0 100) = true) as Hall by (vm_compute; reflexivity).
rewrite forallb_forall in Hall.
specialize (Hall (Z.to_nat n)). rewrite Z2Nat.id in Hall by lia.
apply String.eqb_eq, Hall, in_seq. lia.
Qed.

Lemma digit_inj a b : 0 <= a < 10 -> 0 <= b < 10 -> digit a = digit b -> a = b.
Proof.
intros Ha Hb H. unfold digit in H.
apply (f_equal nat_of_ascii) in H.
rewrite !nat_ascii_embedding in H by lia. lia.
Qed.

Lemma format_time_digits seconds :
  0 <= seconds < 360000 ->
  let h := seconds / 3600 in
  let m := (seconds mod 3600) / 60 in
  let s := seconds mod 60 in
  format_time seconds
  = String (digit (h / 10)) (String (digit (h mod 10)) (String ":"
     (String (digit (m / 10)) (String (digit (m mod 10)) (String ":"
       (String (digit (s / 10)) (String (digit (s mod 10)) EmptyString))))))).
Proof.
intros Hs h m s. unfold format_time. fold h m s.
rewrite !fmt_02d_digits; [reflexivity| | |].
- subst s. pose proof (Z.mod_pos_bound seconds 60). lia.
- subst m. pose proof (Z.mod_pos_bound seconds 3600).
  split; [apply Z.div_pos; lia|]. apply Z.div_lt_upper_bound; lia.
- subst h. split; [apply Z.div_pos; lia|]. apply Z.div_lt_upper_bound; lia.
Qed.

Lemma tens_units x y : x / 10 = y / 10 -> x mod 10 = y mod 10 -> x = y.
Proof.
intros H1 H2. rewrite (Z.div_mod x 10), (Z.div_mod y 10) by lia. by rewrite H1, H2.
Qed.

Lemma hms_decomposition x :
  x = 3600 * (x / 3600) + 60 * (x mod 3600 / 60) + x mod 60.
Proof.
rewrite <- (Z.mod_mod_divide x 3600 60) by (exists 60; lia).
pose proof (Z.div_mod x 3600 ltac:(lia)).
pose proof (Z.div_mod (x mod 3600) 60 ltac:(lia)). lia.
Qed.

(** X18.  For an elapsed time below 100 hours [format_time] shows exactly
    eight characters, two digits each for hours, minutes and seconds with
    colons between, and the display determines the elapsed time: two
    different times never show the same text. *)
Theorem X18_format_time_is_faithful :
  forall a b : Z,
    0 <= a < 360000 -> 0 <= b < 360000 ->
    String.length (format_time a) = 8%nat
    /\ String.get 2 (format_time a) = Some ":"%char
    /\ String.get 5 (format_time a) = Some ":"%char
    /\ (format_time a = format_time b -> a = b).
Proof.
intros a b Ha Hb.
rewrite (format_time_digits a Ha), (format_time_digits b Hb).
split; [reflexivity|]. split; [reflexivity|]. split; [reflexivity|].
intros H. injection H as H1 H2 H3 H4 H5 H6.
pose proof (Z.mod_pos_bound a 3600 ltac:(lia)).
pose proof (Z.mod_pos_bound b 3600 ltac:(lia)).
pose proof (Z.mod_pos_bound a 60 ltac:(lia)).
pose proof (Z.mod_pos_bound b 60 ltac:(lia)).
assert (0 <= a / 3600 < 100) by (split; [apply Z.div_pos; lia|apply Z.div_lt_upper_bound; lia]).
assert (0 <= b / 3600 < 100) by (split; [apply Z.div_pos; lia|apply Z.div_lt_upper_bound; lia]).
assert (0 <= a mod 3600 / 60 < 60) by (split; [apply Z.div_pos; lia|apply Z.div_lt_upper_bound; lia]).
assert (0 <= b mod 3600 / 60 < 60) by (split; [apply Z.div_pos; lia|apply Z.div_lt_upper_bound; lia]).
apply digit_inj in H1, H2, H3, H4, H5, H6;
  try (split; [apply Z.div_pos; lia|apply Z.div_lt_upper_bound; lia]);
  try (apply Z.mod_pos_bound; lia).
pose proof (tens_units _ _ H1 H2) as Hh.
pose proof (tens_units _ _ H3 H4) as Hm.
pose proof (tens_units _ _ H5 H6) as Hsec.
rewrite (hms_decomposition a), (hms_decomposition b).
by rewrite Hh, Hm, Hsec.
Qed.

Lemma X18_witness :
  String.length (format_time 3725) = 8%nat
  /\ String.get 2 (format_time 3725) = Some ":"%char
  /\ String.get 5 (format_time 3725) = Some ":"%char
  /\ (format_time 3725 = format_time 3725 -> 3725 = 3725).
Proof.
apply (X18_format_time_is_faithful 3725 3725); lia.
Defined.

(** ** The search for the loopback device *)

(** X19.  The device chosen for system audio is one of the listed devices
    and passes a loopback test on its name.  A device is chosen whenever
    some device has "loopback" in its lower-cased name, and none is chosen
    only if no device has.  When some loopback device carries the name of
    the default speakers, the chosen device carries that name too: such a
    device is preferred to any other loopback device, wherever it is in the
    list. *)
Theorem X19_loopback_device_choice :
  forall (devices : list device) (default_speakers : device),
    (forall dev, find_loopback devices default_speakers = Some dev ->
       In dev devices
       /\ (endswith (dev_name dev) "[Loopback]" = true
           \/ str_in "loopback" (lower (dev_name dev)) = true))
    /\ (forall dev0, In dev0 devices ->
          str_in "loopback" (lower (dev_name dev0)) = true ->
          exists dev, find_loopback devices default_speakers = Some dev)
    /\ (find_loopback devices default_speakers = None ->
        forall dev, In dev devices ->
          str_in "loopback" (lower (dev_name dev)) = false)
    /\ (forall dev0, In dev0 devices ->
          str_in "loopback" (lower (dev_name dev0)) = true ->
          str_in (dev_name default_speakers) (dev_name dev0) = true ->
          exists dev,
            find_loopback devices default_speakers = Some dev
            /\ str_in (dev_name default_speakers) (dev_name dev) = true).
Proof.
intros devices ds. unfold find_loopback.
set (p1 := fun dev : device =>
             (endswith (dev_name dev) "[Loopback]"
              || str_in "loopback" (lower (dev_name dev)))
             && str_in (dev_name ds) (dev_name dev)).
set (p2 := fun dev : device => str_in "loopback" (lower (dev_name dev))).
split; [|split; [|split]].
- intros dev H. destruct (find p1 devices) as [d|] eqn:E1.
  + injection H as <-. apply find_some in E1 as [Hin Hp]. split; [exact Hin|].
    unfold p1 in Hp. apply andb_prop in Hp as [Hp _]. by apply orb_prop in Hp.
  + apply find_some in H as [Hin Hp]. split; [exact Hin|]. by right.
- intros dev0 Hin H0. destruct (find p1 devices) as [d|]; [by exists d|].
  destruct (find p2 devices) as [d|] eqn:E2; [by exists d|].
  pose proof (find_none _ _ E2 dev0 Hin) as Hn. unfold p2 in Hn. congruence.
- intros H dev Hin. destruct (find p1 devices) as [d|]; [discriminate|].
  exact (find_none _ _ H dev Hin).
- intros dev0 Hin H0 H1. destruct (find p1 devices) as [d|] eqn:E1.
  + exists d. split; [reflexivity|]. apply find_some in E1 as [_ Hp].
    unfold p1 in Hp. by apply andb_prop in Hp as [_ Hp].
  + pose proof (find_none _ _ E1 dev0 Hin) as Hn. unfold p1 in Hn.
    rewrite H0, H1, orb_true_r in Hn. discriminate.
Qed.

Lemma X19_witness :
  exists dev,
    find_loopback
      [Device "Microphone (USB)" 0 1;
       Device "Headphones (Other) [Loopback]" 1 2;
       Device "Speakers (Realtek) [Loopback]" 2 8]
      (Device "Speakers (Realtek)" 5 0) = Some dev
    /\ str_in "Speakers (Realtek)" (dev_name dev) = true.
Proof.
apply (proj2 (proj2 (proj2 (X19_loopback_device_choice
         [Device "Microphone (USB)" 0 1;
          Device "Headphones (Other) [Loopback]" 1 2;
          Device "Speakers (Realtek) [Loopback]" 2 8]
         (Device "Speakers (Realtek)" 5 0))))
         (Device "Speakers (Realtek) [Loopback]" 2 8)).
- right. right. left. reflexivity.
- reflexivity.
- reflexivity.
Defined.

Example find_loopback_prefers_default :
  find_loopback
    [Device "Microphone (USB)" 0 1;
     Device "Headphones (Other) [Loopback]" 1 2;
     Device "Speakers (Realtek) [Loopback]" 2 8]
    (Device "Speakers (Realtek)" 5 0)
  = Some (Device "Speakers (Realtek) [Loopback]" 2 8).
Proof. reflexivity. Qed.

Example format_time_3725 : format_time 3725 = "01:02:05".
Proof. reflexivity. Qed.

Example hit_test_corner_wins :
  RegionSelector.hit_test (QRect.xywh 100 100 200 150) (Point 104 96)
  = RegionSelector.Mode_Resize_TL.
Proof. reflexivity. Qed.

(** ** More on the session *)

Lemma steps_ticks AA n : forall (self : ScreenRecorder.t) w,
  ScreenRecorder.steps AA self (replicate n ScreenRecorder.Tick) w
  = (Ok (ScreenRecorder.Build (ScreenRecorder.frames self)
           (ScreenRecorder.is_recording self) (ScreenRecorder.record_thread self)
           (ScreenRecorder.record_time self + Z.of_nat n)
           (ScreenRecorder.audio_file self)), w).
Proof.
induction n as [|n IH]; intros self w.
- cbn. rewrite Z.add_0_r. by destruct self.
- cbn [replicate ScreenRecorder.steps ScreenRecorder.step]. unfold bind, ret.
  rewrite IH. cbn. do 3 f_equal. lia.
Qed.

(** X20.  The elapsed time runs on across a reselection only if the first
    sub-run captured a frame.  From a fresh session, n timer ticks in the
    first sub-run and m in the second leave n + m seconds when the first
    sub-run captured something, but m seconds when it captured nothing,
    because starting with an empty frame list resets the clock. *)
Theorem X20_elapsed_time_across_reselection :
  forall (AUDIO_AVAILABLE : bool) (rate1 rate2 : capture_rate) (a1 a2 : bool)
         (env1 env2 : subrun) (n m : nat) (w : world),
    exists s w',
      ScreenRecorder.steps AUDIO_AVAILABLE ScreenRecorder.init
        ([ScreenRecorder.Start rate1 a1] ++ replicate n ScreenRecorder.Tick
         ++ [ScreenRecorder.Reselect env1; ScreenRecorder.Start rate2 a2]
         ++ replicate m ScreenRecorder.Tick ++ [ScreenRecorder.Stop env2]) w
      = (Ok s, w')
      /\ ScreenRecorder.record_time s
         = match captured (ticks env1) with
           | [] => Z.of_nat m
           | _ :: _ => Z.of_nat n + Z.of_nat m
           end.
Proof.
intros AA rate1 rate2 a1 a2 env1 env2 n m w.
cbn [app ScreenRecorder.steps ScreenRecorder.step]. unfold bind at 1, ret at 1.
rewrite steps_app, steps_ticks.
cbn [ScreenRecorder.steps ScreenRecorder.step]. unfold bind at 1.
unfold ScreenRecorder.reselect_region.
edestruct (stop_recording_running
             (ScreenRecorder.Build
                (ScreenRecorder.frames (ScreenRecorder.start_recording AA ScreenRecorder.init rate1 a1))
                (ScreenRecorder.is_recording (ScreenRecorder.start_recording AA ScreenRecorder.init rate1 a1))
                (ScreenRecorder.record_thread (ScreenRecorder.start_recording AA ScreenRecorder.init rate1 a1))
                (ScreenRecorder.record_time (ScreenRecorder.start_recording AA ScreenRecorder.init rate1 a1)
                 + Z.of_nat n)
                (ScreenRecorder.audio_file (ScreenRecorder.start_recording AA ScreenRecorder.init rate1 a1)))
             false env1 w)
  as (s1 & w1 & -> & Hfr1 & _ & Ht1 & _); [reflexivity|reflexivity| |].
{ cbn. apply rate_value_nonzero. }
cbn [ScreenRecorder.frames ScreenRecorder.record_time ScreenRecorder.start_recording
     ScreenRecorder.init app] in Hfr1, Ht1.
unfold bind at 1, ret at 1.
rewrite steps_app, steps_ticks.
cbn [ScreenRecorder.steps ScreenRecorder.step]. unfold bind.
edestruct (stop_recording_running
             (ScreenRecorder.Build
                (ScreenRecorder.frames (ScreenRecorder.start_recording AA s1 rate2 a2))
                (ScreenRecorder.is_recording (ScreenRecorder.start_recording AA s1 rate2 a2))
                (ScreenRecorder.record_thread (ScreenRecorder.start_recording AA s1 rate2 a2))
                (ScreenRecorder.record_time (ScreenRecorder.start_recording AA s1 rate2 a2)
                 + Z.of_nat m)
                (ScreenRecorder.audio_file (ScreenRecorder.start_recording AA s1 rate2 a2)))
             true env2 w1)
  as (s2 & w2 & -> & _ & _ & Ht2 & _); [reflexivity|reflexivity| |].
{ cbn. apply rate_value_nonzero. }
exists s2, w2. split; [reflexivity|].
rewrite Ht2. cbn [ScreenRecorder.record_time].
unfold ScreenRecorder.start_recording. rewrite Hfr1.
destruct (captured (ticks env1)); cbn [ScreenRecorder.record_time]; lia.
Qed.

(** X21.  A sub-run without audio (the box unchecked, or the audio
    libraries missing) never touches the file system, and stopping it leaves
    the session without an audio path. *)
Theorem X21_subrun_without_audio_writes_nothing :
  forall (AUDIO_AVAILABLE check_audio : bool) (self : ScreenRecorder.t)
         (rate : capture_rate) (finish : bool) (env : subrun) (w : world),
    AUDIO_AVAILABLE && check_audio = false ->
    exists s w',
      ScreenRecorder.stop_recording
        (ScreenRecorder.start_recording AUDIO_AVAILABLE self rate check_audio)
        finish env w = (Ok s, w')
      /\ fs w' = fs w
      /\ ScreenRecorder.audio_file s = None
      /\ ScreenRecorder.frames s = ScreenRecorder.frames self ++ captured (ticks env).
Proof.
intros AA ca self rate finish env w Hoff.
set (th0 := RecordThread.start (RecordThread.init AA (rate_value rate) ca)).
unfold ScreenRecorder.stop_recording.
change (ScreenRecorder.record_thread
          (ScreenRecorder.start_recording AA self rate ca)) with (Some th0).
cbv beta iota. change (RecordThread.is_recording th0) with true. cbv iota.
unfold bind.
destruct (run_total th0 env w) as (th & w' & Hrun & Hfr & _ & _ & Haf & Hfs).
{ cbn. apply rate_value_nonzero. }
rewrite Hrun. eexists _, _. split; [reflexivity|].
assert (RecordThread.audio_file th = None) as Hnone.
{ rewrite Haf. unfold audio_file_after, th0. cbn.
  rewrite andb_comm in Hoff. by rewrite Hoff. }
cbn [ScreenRecorder.audio_file ScreenRecorder.frames RecordThread.get_audio_file].
split; [|split; [exact Hnone|]].
- destruct Hfs as [Hfs|(r & mixed & Hsome & _)]; [exact Hfs|congruence].
- by rewrite Hfr, start_recording_frames.
Qed.

Lemma X21_witness :
  exists s w',
    ScreenRecorder.stop_recording
      (ScreenRecorder.start_recording true ScreenRecorder.init FPS30 false)
      true (Subrun [grabbed (Frame 480 640 BGRA 0)] [stereo_chunk] [] None
              "screen_rec_audio_1.wav") (World ∅ [])
    = (Ok s, w')
    /\ fs w' = ∅
    /\ ScreenRecorder.audio_file s = None
    /\ ScreenRecorder.frames s = [] ++ [small_frame 0].
Proof.
apply (X21_subrun_without_audio_writes_nothing true false ScreenRecorder.init FPS30
         true (Subrun [grabbed (Frame 480 640 BGRA 0)] [stereo_chunk] [] None
                 "screen_rec_audio_1.wav") (World ∅ [])).
reflexivity.
Defined.

(** ** The size of an animated image *)

Lemma slice_step_count {A} (step : Z) (lst : list A) :
  1 <= step ->
  Z.of_nat (length (slice_step step lst)) = (Z.of_nat (length lst) + step - 1) / step.
Proof.
intros Hstep.
set (L := length (slice_step step lst)). set (n := length lst).
pose proof (slice_step_length step lst) as Hchar. fold L n in Hchar.
assert (Z.of_nat n <= Z.of_nat L * step) as Hup.
{ destruct (Hchar L Hstep) as [_ H].
  destruct (Nat.lt_ge_cases (L * Z.to_nat step) n) as [Hlt|Hge].
  - apply H in Hlt. lia.
  - nia. }
assert (L = 0%nat \/ (Z.of_nat L - 1) * step < Z.of_nat n) as Hlow.
{ destruct L as [|L']; [by left|right].
  destruct (Hchar L' Hstep) as [H _]. specialize (H ltac:(lia)). nia. }
apply (Z.div_unique _ _ _ (Z.of_nat n + step - 1 - Z.of_nat L * step)).
- left. destruct Hlow as [H0|Hlow]; [rewrite H0 in *|]; nia.
- lia.
Qed.

(** X22.  An animated-image export of n frames that can all be prepared,
    with step max(1, fps // gif_fps), writes exactly ceil(n / step) images,
    at the target rate: at least one, and never more than n. *)
Theorem X22_gif_image_count :
  forall (self : ExportThread.t) (e : ExportThread.env) (w : world) f0 rest,
    ExportThread.frames self = f0 :: rest ->
    ExportThread.fmt self = "gif" ->
    ExportThread.gif_fps self <> 0 ->
    Forall (fun f => gif_preparable f = true) (ExportThread.frames self) ->
    let n := Z.of_nat (length (ExportThread.frames self)) in
    let step := Z.max 1 (ExportThread.fps self / ExportThread.gif_fps self) in
    exists w' images,
      ExportThread.run self e w = (Ok tt, w')
      /\ fs w' !! ExportThread.path self
         = Some (GifFile (ExportThread.gif_fps self) images)
      /\ Z.of_nat (length images) = (n + step - 1) / step
      /\ 1 <= Z.of_nat (length images) <= n.
Proof.
intros self e w f0 rest Hfr Hfmt Hgif Hall n step.
assert (1 <= step) as Hstep by (unfold step; lia).
destruct (run_gif_preparable self e w f0 rest step Hfr Hfmt
            (gif_step_value (ExportThread.fps self) _ Hgif) Hall)
  as (imgs & evs & Hlen & Hrun).
eexists _, imgs. split; [exact Hrun|]. cbn [fs]. split; [apply lookup_insert_eq|].
rewrite Hlen.
pose proof (slice_step_count step (ExportThread.frames self) Hstep) as Hc.
fold n in Hc. split; [exact Hc|]. rewrite Hc.
assert (1 <= n) by (unfold n; rewrite Hfr; cbn [length]; lia).
split.
- apply Z.div_le_lower_bound; lia.
- apply Z.div_le_upper_bound; nia.
Qed.

Lemma X22_witness :
  exists w' images,
    ExportThread.run (gif_job 30 10) mux_fails mux_world = (Ok tt, w')
    /\ fs w' !! "Rec_1.gif" = Some (GifFile 10 images)
    /\ Z.of_nat (length images) = (7 + 3 - 1) / 3
    /\ 1 <= Z.of_nat (length images) <= 7.
Proof.
apply (X22_gif_image_count (gif_job 30 10) mux_fails mux_world
         (hd_frame 0) (map hd_frame (seq 1 6))).
- reflexivity.
- reflexivity.
- discriminate.
- repeat constructor.
Defined.
